(** * ChainWatch: the transfer pipeline, verified against its source

    A shallow embedding of the event pipeline of ChainWatch:
    - class [TransferFilter]: duplicate, threshold, watch-list and cooldown
      checks over a seen-set and a cooldown map;
    - class [BlockchainListener]: the reconnection counter;
    - class [ConfigWatcher]: loading and validating config.json;
    - class [TelegramNotifier]: the retry loop of [sendAlert];
    - the ['transfer'] handler that class [ChainWatch] installs in
      [setupEventHandlers], which feeds the sinks.

    Mutable objects become records threaded through the calls, a JavaScript
    [Set] becomes the list of its elements in insertion order, a [Map] a
    [gmap], and every reading of [Date.now()] an explicit argument. *)

From Stdlib Require Import ZArith QArith Bool List String Ascii Lia.
From stdpp Require Import base gmap strings list fin_maps.
Import ListNotations.

Local Open Scope string_scope.
Local Open Scope Z_scope.

(** ** JavaScript values and built-ins *)

Module JS.

(** A JavaScript number as far as the pipeline looks at it: [NaN], the two
    infinities, or a finite value.  Every finite double is a rational, and
    [<] on doubles is [<] on those rationals. *)
Inductive JsNum : Type :=
| NaN
| NegInf
| Fin (q : Q)
| PosInf.

(** A value read from the configuration or from an event field. *)
Inductive JsValue : Type :=
| JUndefined
| JNumber (n : JsNum)
| JString (s : string).

(** [a < b]: false as soon as one side is [NaN]. *)
Definition js_lt (a b : JsNum) : bool :=
  match a, b with
  | NaN, _ | _, NaN => false
  | NegInf, NegInf => false
  | NegInf, _ => true
  | Fin _, NegInf => false
  | Fin x, Fin y => negb (Qle_bool y x)
  | Fin _, PosInf => true
  | PosInf, _ => false
  end.

(** ToBoolean on a number: [NaN] and zero are falsy. *)
Definition truthy (n : JsNum) : bool :=
  match n with
  | NaN => false
  | Fin q => negb (Qeq_bool q 0)
  | NegInf | PosInf => true
  end.

(** [n || 0] *)
Definition or_zero (n : JsNum) : JsNum :=
  if truthy n then n else Fin 0.

(** [parseFloat] and [parseInt] are the engine's; the pipeline is verified
    for any pair of them.  The one fact used is that a missing field
    ([undefined]) does not parse.  [parseInt] yields an integer or [NaN]
    ([None]). *)
Class Builtins : Type := {
  parseFloat : JsValue -> JsNum;
  parseInt : JsValue -> option Z;
  parseFloat_undefined : parseFloat JUndefined = NaN;
  parseInt_undefined : parseInt JUndefined = None
}.

(** [String.prototype.toLowerCase] on ASCII text (addresses are hexadecimal
    text): [A]-[Z] move to [a]-[z], every other byte stays. *)
Definition lower_ascii (c : ascii) : ascii :=
  let n := nat_of_ascii c in
  if ((65 <=? n) && (n <=? 90))%nat then ascii_of_nat (n + 32) else c.

Fixpoint toLowerCase (s : string) : string :=
  match s with
  | EmptyString => EmptyString
  | String c rest => String (lower_ascii c) (toLowerCase rest)
  end.

(** [s.includes(sub)] *)
Fixpoint includes (s sub : string) : bool :=
  String.prefix sub s ||
  match s with
  | EmptyString => false
  | String _ rest => includes rest sub
  end.

(** Two addresses are the same up to letter case. *)
Definition same_address (a b : string) : Prop :=
  toLowerCase a = toLowerCase b.

(** "[a] is at least [t]" on numbers that are not [NaN]. *)
Definition at_least (a t : JsNum) : Prop :=
  match a, t with
  | NaN, _ | _, NaN => False
  | _, NegInf => True
  | PosInf, _ => True
  | Fin x, Fin y => (y <= x)%Q
  | NegInf, _ => False
  | Fin _, PosInf => False
  end.

End JS.
Import JS.

(** ** The data model *)

(** The fields of a transfer event, as the listener builds it. *)
Record TransferEvent : Type := {
  e_type : string;
  e_from : string;
  e_to : string;
  e_amount : JsValue;
  e_rawAmount : string;
  e_blockNumber : Z;
  e_transactionHash : string;
  e_tokenSymbol : string;
  e_tokenName : string;
  e_timestamp : Z
}.

(** An entry of [watchedWallets]: a plain string, or an object with an
    [address] and an [enabled] field ([None] when the field is absent). *)
Inductive Wallet : Type :=
| WString (address : string)
| WObject (address : string) (enabled : option bool).

(** The fields of config.json the pipeline reads. *)
Record Config : Type := {
  tokenContract : string;
  thresholdAmount : JsValue;
  watchedWallets : option (list Wallet);
  cooldownSeconds : JsValue
}.

Inductive Reason : Type :=
| duplicate
| below_threshold
| not_watched
| cooldown
| matched.

#[global] Instance Reason_eq_dec : EqDecision Reason.
Proof. solve_decision. Defined.

(** The object a check returns: [{ passed }] alone on success, with a
    [reason] on failure; [filter] adds [showInUI].  The [message] text is
    for the log only and is left out. *)
Record Result : Type := {
  passed : bool;
  showInUI : option bool;
  reason : option Reason
}.

Definition ok : Result :=
  {| passed := true; showInUI := None; reason := None |}.

Definition failing (r : Reason) : Result :=
  {| passed := false; showInUI := None; reason := Some r |}.

(** What [filter] returns for a transaction it has already seen. *)
Definition duplicate_verdict : Result :=
  {| passed := false; showInUI := Some false; reason := Some duplicate |}.

(** [{ ...result, showInUI: b }] *)
Definition with_showInUI (b : bool) (r : Result) : Result :=
  {| passed := passed r; showInUI := Some b; reason := reason r |}.

(** ** TransferFilter *)

Module TransferFilter.

Record t : Type := {
  config : Config;
  processedTxHashes : list string;
  lastAlertTime : gmap string Z;
  maxCacheSize : Z
}.

(** [constructor(config)] *)
Definition new (cfg : Config) : t :=
  {| config := cfg; processedTxHashes := []; lastAlertTime := ∅;
     maxCacheSize := 10000 |}.

Definition set_processedTxHashes (l : list string) (self : t) : t :=
  {| config := config self; processedTxHashes := l;
     lastAlertTime := lastAlertTime self; maxCacheSize := maxCacheSize self |}.

Definition set_lastAlertTime (m : gmap string Z) (self : t) : t :=
  {| config := config self; processedTxHashes := processedTxHashes self;
     lastAlertTime := m; maxCacheSize := maxCacheSize self |}.

(** [updateConfig(newConfig)] *)
Definition updateConfig (newConfig : Config) (self : t) : t :=
  {| config := newConfig; processedTxHashes := processedTxHashes self;
     lastAlertTime := lastAlertTime self; maxCacheSize := maxCacheSize self |}.

(** [Set.prototype.add]: a new element goes last, a present one stays put. *)
Definition set_add (h : string) (l : list string) : list string :=
  if bool_decide (h ∈ l) then l else (l ++ [h])%list.

(** [isDuplicate(txHash)] *)
Definition isDuplicate (self : t) (txHash : string) : bool :=
  bool_decide (txHash ∈ processedTxHashes self).

(** [markProcessed(txHash)]: at capacity the 1000 oldest hashes go first. *)
Definition markProcessed (txHash : string) (self : t) : t :=
  let hashes := processedTxHashes self in
  let hashes :=
    if maxCacheSize self <=? Z.of_nat (length hashes) then drop 1000 hashes
    else hashes in
  set_processedTxHashes (set_add txHash hashes) self.

(** The address a watch-list entry stands for, and whether it counts:
    [typeof w === 'string' || w.enabled !== false]. *)
Definition wallet_enabled (w : Wallet) : bool :=
  match w with
  | WString _ => true
  | WObject _ enabled =>
      match enabled with Some false => false | _ => true end
  end.

Definition wallet_address (w : Wallet) : string :=
  match w with
  | WString a => a
  | WObject a _ => a
  end.

(** An enabled entry, in the words of the watch-list rule: a plain string,
    or an object whose [enabled] field is not [false]. *)
Definition is_enabled (w : Wallet) : Prop :=
  match w with
  | WString _ => True
  | WObject _ enabled => enabled <> Some false
  end.

Section WithBuiltins.
Context {B : Builtins}.

(** [checkThreshold(amount)] *)
Definition checkThreshold (self : t) (amount : JsValue) : Result :=
  let threshold := or_zero (parseFloat (thresholdAmount (config self))) in
  let eventAmount := parseFloat amount in
  if js_lt eventAmount threshold then failing below_threshold else ok.

(** [checkWatchedWallets(from, to)] *)
Definition checkWatchedWallets (self : t) (from to : string) : Result :=
  let watched := default [] (watchedWallets (config self)) in
  if (length watched =? 0)%nat then ok
  else
    let normalizedFrom := toLowerCase from in
    let normalizedTo := toLowerCase to in
    let normalizedWatched :=
      List.map (fun w => toLowerCase (wallet_address w))
               (List.filter wallet_enabled watched) in
    let fromWatched := bool_decide (normalizedFrom ∈ normalizedWatched) in
    let toWatched := bool_decide (normalizedTo ∈ normalizedWatched) in
    if negb fromWatched && negb toWatched then failing not_watched else ok.

(** The body of the loop of [checkCooldown]: an address holds the event back
    when it has a (truthy) timestamp less than [cooldownMs] old. *)
Definition in_cooldown (self : t) (now cooldownMs : Z) (addr : string) : bool :=
  match lastAlertTime self !! addr with
  | Some lastAlert => negb (lastAlert =? 0) && (now - lastAlert <? cooldownMs)
  | None => false
  end.

Fixpoint checkCooldown_loop (self : t) (now cooldownMs : Z)
    (addresses : list string) : Result :=
  match addresses with
  | [] => ok
  | addr :: rest =>
      if in_cooldown self now cooldownMs addr then failing cooldown
      else checkCooldown_loop self now cooldownMs rest
  end.

(** [checkCooldown(from, to)], [now] being what [Date.now()] returns in it. *)
Definition checkCooldown (self : t) (now : Z) (from to : string) : Result :=
  let cooldownSecs := default 0 (parseInt (cooldownSeconds (config self))) in
  if cooldownSecs =? 0 then ok
  else
    let cooldownMs := cooldownSecs * 1000 in
    let addresses := [toLowerCase from; toLowerCase to] in
    checkCooldown_loop self now cooldownMs addresses.

(** [updateCooldown(from, to)]: both addresses get [now], then the entries
    older than one hour are deleted. *)
Definition updateCooldown (now : Z) (from to : string) (self : t) : t :=
  let m := <[toLowerCase from := now]> (lastAlertTime self) in
  let m := <[toLowerCase to := now]> m in
  let oneHourAgo := now - 3600000 in
  set_lastAlertTime
    (filter (fun entry : string * Z => ¬ (entry.2 < oneHourAgo)) m) self.

(** [filter(event)].  [tCheck] is the clock read by [checkCooldown],
    [tUpdate] the one read by [updateCooldown]. *)
Definition filter (self : t) (tCheck tUpdate : Z) (event : TransferEvent)
    : Result * t :=
  if isDuplicate self (e_transactionHash event) then
    (duplicate_verdict, self)
  else
    let self := markProcessed (e_transactionHash event) self in
    let thresholdResult := checkThreshold self (e_amount event) in
    if negb (passed thresholdResult) then
      (with_showInUI true thresholdResult, self)
    else
      let watchedResult :=
        checkWatchedWallets self (e_from event) (e_to event) in
      if negb (passed watchedResult) then
        (with_showInUI true watchedResult, self)
      else
        let cooldownResult :=
          checkCooldown self tCheck (e_from event) (e_to event) in
        if negb (passed cooldownResult) then
          (with_showInUI true cooldownResult, self)
        else
          let self := updateCooldown tUpdate (e_from event) (e_to event) self in
          ({| passed := true; showInUI := Some true; reason := Some matched |},
           self).

(** Feeding a sequence of events, each with its two clock readings. *)
Fixpoint run (self : t) (events : list (Z * Z * TransferEvent))
    : list Result * t :=
  match events with
  | [] => ([], self)
  | (tCheck, tUpdate, event) :: rest =>
      let (r, self) := filter self tCheck tUpdate event in
      let (rs, self) := run self rest in
      (r :: rs, self)
  end.

End WithBuiltins.

End TransferFilter.

(** ** BlockchainListener: the reconnection counter *)

Module BlockchainListener.

(** The [status] of a ['connection'] event. *)
Inductive Status : Type :=
| st_connected
| st_disconnected
| st_error
| st_failed.

(** What the listener does to the outside: it emits a ['connection'] event,
    or arms a timer that will call [connect()] (and [subscribe()] on
    success) after [delay] milliseconds. *)
Inductive Action : Type :=
| Emit (status : Status)
| SetTimeout (delay : Z).

Record t : Type := {
  isConnected : bool;
  reconnectAttempts : Z;
  maxReconnectAttempts : Z;
  reconnectDelay : Z
}.

(** [constructor(config, eventEmitter)] *)
Definition new : t :=
  {| isConnected := false; reconnectAttempts := 0;
     maxReconnectAttempts := 10; reconnectDelay := 5000 |}.

Definition set_isConnected (b : bool) (self : t) : t :=
  {| isConnected := b; reconnectAttempts := reconnectAttempts self;
     maxReconnectAttempts := maxReconnectAttempts self;
     reconnectDelay := reconnectDelay self |}.

Definition set_reconnectAttempts (n : Z) (self : t) : t :=
  {| isConnected := isConnected self; reconnectAttempts := n;
     maxReconnectAttempts := maxReconnectAttempts self;
     reconnectDelay := reconnectDelay self |}.

(** [attemptReconnect()] *)
Definition attemptReconnect (self : t) : t * list Action :=
  if maxReconnectAttempts self <=? reconnectAttempts self then
    (self, [Emit st_failed])
  else
    let self := set_reconnectAttempts (reconnectAttempts self + 1) self in
    let delay := reconnectDelay self * reconnectAttempts self in
    (self, [SetTimeout delay]).

(** What can happen to the listener: the three websocket handlers that
    [connect()] installs, and [connect()] ending in its [catch] branch. *)
Inductive Input : Type :=
| WsOpen
| WsClose
| WsError
| ConnectFailed.

Definition step (self : t) (i : Input) : t * list Action :=
  match i with
  | WsOpen =>
      let self := set_isConnected true self in
      let self := set_reconnectAttempts 0 self in
      (self, [Emit st_connected])
  | WsClose =>
      let self := set_isConnected false self in
      let (self, acts) := attemptReconnect self in
      (self, Emit st_disconnected :: acts)
  | WsError => (self, [Emit st_error])
  | ConnectFailed =>
      let (self, acts) := attemptReconnect self in
      (self, Emit st_error :: acts)
  end.

(** The actions of each input of a sequence, in order. *)
Fixpoint run (self : t) (inputs : list Input) : t * list (list Action) :=
  match inputs with
  | [] => (self, [])
  | i :: rest =>
      let (self, acts) := step self i in
      let (self, more) := run self rest in
      (self, acts :: more)
  end.

Definition emits_failed (acts : list Action) : bool :=
  existsb (fun a => match a with Emit st_failed => true | _ => false end) acts.

Definition schedules (acts : list Action) : list Z :=
  omap (fun a => match a with SetTimeout d => Some d | _ => None end) acts.

End BlockchainListener.

(** ** ConfigWatcher: loading config.json *)

Module ConfigWatcher.

(** A parsed JSON document; an object keeps its properties in order. *)
#[warnings="-register-all"]
Inductive Json : Type :=
| JNull
| JBool (b : bool)
| JNum (n : JsNum)
| JStr (s : string)
| JArr (items : list Json)
| JObj (fields : list (string * Json)).

(** The file at [configPath] as [existsSync] and [readFileSync] find it. *)
Inductive File : Type :=
| Absent
| Unreadable
| Readable (content : string).

(** [obj[key]] on an object's property list. *)
Fixpoint lookup_field (key : string) (fields : list (string * Json))
    : option Json :=
  match fields with
  | [] => None
  | (k, v) :: rest => if String.eqb k key then Some v else lookup_field key rest
  end.

(** [obj[key] = v]: a present property keeps its place, a new one goes last. *)
Fixpoint assign_field (key : string) (v : Json) (fields : list (string * Json))
    : list (string * Json) :=
  match fields with
  | [] => [(key, v)]
  | (k, old) :: rest =>
      if String.eqb k key then (k, v) :: rest
      else (k, old) :: assign_field key v rest
  end.

(** ToBoolean *)
Definition json_truthy (v : option Json) : bool :=
  match v with
  | None | Some JNull => false
  | Some (JBool b) => b
  | Some (JNum n) => truthy n
  | Some (JStr s) => negb (String.eqb s "")
  | Some (JArr _) | Some (JObj _) => true
  end.

(** [config[key]]: reading a property of [null] throws ([None]); a value
    that is not an object has no such property ([Some None]). *)
Definition get (config : Json) (key : string) : option (option Json) :=
  match config with
  | JNull => None
  | JObj fields => Some (lookup_field key fields)
  | _ => Some None
  end.

(** [config[key] = config[key] ?? d] *)
Definition set_default (key : string) (d : Json) (config : Json) : Json :=
  match config with
  | JObj fields =>
      match lookup_field key fields with
      | None | Some JNull => JObj (assign_field key d fields)
      | Some v => JObj (assign_field key v fields)
      end
  | _ => config
  end.

Definition required : list string := ["tokenContract"].

(** [validateConfig(config)]: [None] when it throws, else the object with
    its defaults filled in. *)
Definition validateConfig (config : Json) : option Json :=
  match config with
  | JNull => None
  | _ =>
      let missing :=
        List.filter
          (fun key => negb (json_truthy (default None (get config key))))
          required in
      if (0 <? length missing)%nat then None
      else
        let config := set_default "thresholdAmount" (JNum (Fin 0)) config in
        let config := set_default "watchedWallets" (JArr []) config in
        let config := set_default "cooldownSeconds" (JNum (Fin 0)) config in
        let config := set_default "telegramChatId" (JStr "") config in
        let config := set_default "confirmationDepth" (JNum (Fin 0)) config in
        Some config
  end.

(** The watcher's [config] field: [None] is [null]. *)
Record t : Type := {
  config : option Json
}.

(** [constructor(configPath, eventEmitter)] *)
Definition new : t := {| config := None |}.

(** The payload of a ['configChange'] event, without [changedFields]. *)
Record ConfigChange : Type := {
  oldConfig : Json;
  newConfig : Json
}.

Section WithParser.
(** [JSON.parse]: [None] when it throws. *)
Variable JSON_parse : string -> option Json.

(** [loadConfig()]: the value returned ([None] is [null]) and the watcher
    afterwards. *)
Definition loadConfig (file : File) (self : t) : option Json * t :=
  match file with
  | Absent => (None, self)
  | Unreadable => (config self, self)
  | Readable content =>
      match JSON_parse content with
      | None => (config self, self)
      | Some parsed =>
          match validateConfig parsed with
          | None => (config self, self)
          | Some cfg => (Some cfg, {| config := Some cfg |})
          end
      end
  end.

(** [{ ...this.config }] *)
Definition spread (c : option Json) : Json :=
  match c with
  | Some (JObj fields) => JObj fields
  | _ => JObj []
  end.

(** The body of the timer of [handleConfigChange]: what is emitted, if
    anything, and the watcher afterwards. *)
Definition handleConfigChange (file : File) (self : t)
    : option ConfigChange * t :=
  let old := spread (config self) in
  let (loaded, self) := loadConfig file self in
  match loaded with
  | Some cfg => (Some {| oldConfig := old; newConfig := cfg |}, self)
  | None => (None, self)
  end.

(** A reload that fails: no file, a file that cannot be read or parsed, or
    a document that [validateConfig] rejects. *)
Definition reload_fails (file : File) : Prop :=
  match file with
  | Absent | Unreadable => True
  | Readable content =>
      match JSON_parse content with
      | None => True
      | Some parsed => validateConfig parsed = None
      end
  end.

End WithParser.

End ConfigWatcher.

(** ** TelegramNotifier: the retry loop of sendAlert *)

Module TelegramNotifier.

(** What [bot.sendMessage] throws: the [message] and [code] of the error. *)
Record Error : Type := {
  message : option string;
  code : option string
}.

(** One call of [bot.sendMessage]. *)
Inductive Outcome : Type :=
| Sent
| Threw (e : Error).

(** What [sendAlert] does to the outside, in order: a call of
    [bot.sendMessage] at some attempt, or a pause of [delay] milliseconds. *)
Inductive Action : Type :=
| SendMessage (attempt : nat)
| Sleep (delay : Z).

(** The object [sendAlert] resolves to. *)
Record AlertResult : Type := {
  success : bool;
  reason : option string
}.

Record LastAlert : Type := {
  la_timestamp : Z;
  la_transactionHash : string;
  la_amount : JsValue
}.

Record t : Type := {
  isEnabled : bool;
  bot : bool;
  lastAlertSent : option LastAlert;
  alertCount : Z
}.

(** [s || fallback] on an optional string: absent and empty are falsy. *)
Definition str_or (s : option string) (fallback : string) : string :=
  match s with
  | Some x => if String.eqb x "" then fallback else x
  | None => fallback
  end.

(** [error.message || error.code || 'Unknown error'] *)
Definition errorMsg (e : Error) : string :=
  str_or (message e) (str_or (code e) "Unknown error").

Definition isNetworkError (msg : string) : bool :=
  includes msg "ECONNRESET" ||
  includes msg "ETIMEDOUT" ||
  includes msg "ENOTFOUND" ||
  includes msg "socket hang up" ||
  includes msg "network".

(** The pause after a failed [attempt]. *)
Definition delay (attempt : nat) (network : bool) : Z :=
  if network then 2 ^ Z.of_nat attempt * 1000
  else 2 ^ (Z.of_nat attempt - 1) * 1000.

(** What the loop does at one attempt that fails with error [e]: the call,
    and the pause unless it was the last attempt. *)
Definition failed_attempt (retries : nat) (attempt : nat) (e : Error)
    : list Action :=
  SendMessage attempt ::
  (if (attempt <? retries)%nat
   then [Sleep (delay attempt (isNetworkError (errorMsg e)))] else []).

Definition record_success (now : Z) (event : TransferEvent) (self : t) : t :=
  {| isEnabled := isEnabled self; bot := bot self;
     lastAlertSent :=
       Some {| la_timestamp := now;
               la_transactionHash := e_transactionHash event;
               la_amount := e_amount event |};
     alertCount := alertCount self + 1 |}.

Section WithBot.
(** How the call of [bot.sendMessage] at each attempt ends, and the clock. *)
Variable sendMessage : nat -> Outcome.
Variable now : Z.

(** The [for] loop over the attempts still to make. *)
Fixpoint sendAlert_loop (attempts : list nat) (retries : nat)
    (event : TransferEvent) (self : t) : AlertResult * t * list Action :=
  match attempts with
  | [] =>
      ({| success := false; reason := Some "max_retries_exceeded" |}, self, [])
  | attempt :: rest =>
      match sendMessage attempt with
      | Sent =>
          ({| success := true; reason := None |},
           record_success now event self, [SendMessage attempt])
      | Threw error =>
          let network := isNetworkError (errorMsg error) in
          let pause :=
            if (attempt <? retries)%nat then [Sleep (delay attempt network)]
            else [] in
          let '(r, self, acts) := sendAlert_loop rest retries event self in
          (r, self, (SendMessage attempt :: pause ++ acts)%list)
      end
  end.

(** [sendAlert(event, retries)] *)
Definition sendAlert (self : t) (event : TransferEvent) (retries : nat)
    : AlertResult * t * list Action :=
  if negb (isEnabled self) || negb (bot self) then
    ({| success := false; reason := Some "disabled" |}, self, [])
  else sendAlert_loop (seq 1 retries) retries event self.

End WithBot.

Definition sends (acts : list Action) : list nat :=
  omap (fun a => match a with SendMessage n => Some n | _ => None end) acts.

Definition pauses (acts : list Action) : list Z :=
  omap (fun a => match a with Sleep d => Some d | _ => None end) acts.

End TelegramNotifier.

(** ** The 'transfer' handler of index.js *)

Module ChainWatch.

(** What the categorizer, the price service and the rules engine attach to
    an event; they are outside the pipeline and their answers are taken as
    given. *)
Record Enrichment : Type := {
  category : option string;
  priceInfo : option string;
  triggeredRules : list string
}.

Record EventWithMeta : Type := {
  event : TransferEvent;
  filterResult : Result;
  meta : Enrichment;
  processedAt : Z
}.

(** [{ ...event, storedAt }] *)
Record StoredEvent : Type := {
  stored : EventWithMeta;
  storedAt : Z
}.

(** A message of the websocket server to its clients. *)
Inductive Broadcast : Type :=
| BTransfer (e : EventWithMeta) (r : Result) (timestamp : Z)
| BAlertSent (transactionHash : string) (amount : JsValue) (timestamp : Z).

Definition MAX_RECENT_EVENTS : nat := 100.
Definition MAX_EVENTS : nat := 500.

(** The application state the handler touches: the filter and the notifier,
    and the four sinks (the in-memory list, the stored history, what was
    broadcast, and what went to Telegram). *)
Record t : Type := {
  filter : TransferFilter.t;
  notifier : TelegramNotifier.t;
  recentEvents : list EventWithMeta;
  storage : list StoredEvent;
  wsServer : option (list Broadcast);
  telegram : list TelegramNotifier.Action
}.

(** What one run of the handler reads from the outside. *)
Record Env : Type := {
  tCheck : Z;
  tUpdate : Z;
  tProcessed : Z;
  tStored : Z;
  tBroadcast : Z;
  tAlert : Z;
  tAlertSent : Z;
  enrich : TransferEvent -> Enrichment;
  sendMessage : nat -> TelegramNotifier.Outcome
}.

(** [storage.addEvent(event)]: newest first, at most [MAX_EVENTS]. *)
Definition addEvent (now : Z) (e : EventWithMeta) (events : list StoredEvent)
    : list StoredEvent :=
  let events := {| stored := e; storedAt := now |} :: events in
  if (MAX_EVENTS <? length events)%nat then take MAX_EVENTS events
  else events.

(** [recentEvents.push(e)], then [shift()] above [MAX_RECENT_EVENTS]. *)
Definition pushRecent (e : EventWithMeta) (events : list EventWithMeta)
    : list EventWithMeta :=
  let events := (events ++ [e])%list in
  if (MAX_RECENT_EVENTS <? length events)%nat then drop 1 events else events.

(** [this.wsServer?.broadcast...] *)
Definition broadcast (b : Broadcast) (ws : option (list Broadcast))
    : option (list Broadcast) :=
  option_map (fun sent => (sent ++ [b])%list) ws.

Section WithBuiltins.
Context {B : Builtins}.

(** [eventEmitter.on('transfer', async (event) => ...)] *)
Definition onTransfer (app : t) (env : Env) (ev : TransferEvent) : t :=
  let (result, f) :=
    TransferFilter.filter (filter app) (tCheck env) (tUpdate env) ev in
  let app :=
    {| filter := f; notifier := notifier app;
       recentEvents := recentEvents app; storage := storage app;
       wsServer := wsServer app; telegram := telegram app |} in
  if bool_decide (reason result = Some duplicate) then app
  else if negb (passed result) then app
  else
    let eventWithMeta :=
      {| event := ev; filterResult := result; meta := enrich env ev;
         processedAt := tProcessed env |} in
    let recent := pushRecent eventWithMeta (recentEvents app) in
    let stored := addEvent (tStored env) eventWithMeta (storage app) in
    let ws := broadcast (BTransfer eventWithMeta result (tBroadcast env))
                        (wsServer app) in
    let '(alertResult, n, acts) :=
      TelegramNotifier.sendAlert (sendMessage env) (tAlert env)
                                 (notifier app) ev 5 in
    let ws :=
      if TelegramNotifier.success alertResult then
        broadcast (BAlertSent (e_transactionHash ev) (e_amount ev)
                              (tAlertSent env)) ws
      else ws in
    {| filter := f; notifier := n; recentEvents := recent; storage := stored;
       wsServer := ws; telegram := (telegram app ++ acts)%list |}.

End WithBuiltins.

(** The sinks of the application: everything but the filter. *)
Definition sinks (app : t)
    : TelegramNotifier.t * list EventWithMeta * list StoredEvent *
      option (list Broadcast) * list TelegramNotifier.Action :=
  (notifier app, recentEvents app, storage app, wsServer app, telegram app).

End ChainWatch.

(** ** TransferFilter: the cache operations *)

Module FilterCache.

(** [clearCache()] *)
Definition clearCache (self : TransferFilter.t) : TransferFilter.t :=
  {| TransferFilter.config := TransferFilter.config self;
     TransferFilter.processedTxHashes := [];
     TransferFilter.lastAlertTime := ∅;
     TransferFilter.maxCacheSize := TransferFilter.maxCacheSize self |}.

(** The number in the message of a failed cooldown check:
    [Math.ceil((cooldownMs - (now - lastAlert)) / 1000)]. *)
Definition remainingSeconds (now lastAlert cooldownMs : Z) : Z :=
  - ((- (cooldownMs - (now - lastAlert))) / 1000).

Section WithBuiltins.
Context {B : Builtins}.

(** The loop of [checkCooldown] once more, this time with the
    [remainingSeconds] that goes into the message of the failing result:
    that of the first address found in cooldown, [None] when the loop
    ends without one. *)
Fixpoint remaining_loop (self : TransferFilter.t) (now cooldownMs : Z)
    (addresses : list string) : option Z :=
  match addresses with
  | [] => None
  | addr :: rest =>
      if TransferFilter.in_cooldown self now cooldownMs addr then
        Some (remainingSeconds now
                (default 0 (TransferFilter.lastAlertTime self !! addr))
                cooldownMs)
      else remaining_loop self now cooldownMs rest
  end.

(** The [remainingSeconds] announced by [checkCooldown(from, to)], if it
    fails. *)
Definition remaining (self : TransferFilter.t) (now : Z) (from to : string)
    : option Z :=
  let cooldownSecs :=
    default 0 (parseInt (cooldownSeconds (TransferFilter.config self))) in
  if cooldownSecs =? 0 then None
  else
    let cooldownMs := cooldownSecs * 1000 in
    let addresses := [toLowerCase from; toLowerCase to] in
    remaining_loop self now cooldownMs addresses.

End WithBuiltins.

(** The invariant of the seen-set: no hash twice, and never more hashes
    than the capacity. *)
Definition seen_ok (s : TransferFilter.t) : Prop :=
  NoDup (TransferFilter.processedTxHashes s) /\
  Z.of_nat (length (TransferFilter.processedTxHashes s))
    <= TransferFilter.maxCacheSize s.

End FilterCache.

(** ** BlockchainListener: subscriptions and raw events *)

Module Listener.

(** The configuration as the listener reads it: the fields of [Config] and
    [trackingMode] ([None] when the field is missing). *)
Record ListenerConfig : Type := {
  base : Config;
  trackingMode : option string
}.

(** A transaction of a prefetched block; [tx_to] is [null] for a contract
    creation, [tx_value] is the amount in wei. *)
Record Tx : Type := {
  tx_from : string;
  tx_to : option string;
  tx_value : Z;
  tx_hash : string
}.

(** A log delivered for the token filter. *)
Record Log : Type := {
  log_topics : list string;
  log_data : string;
  log_blockNumber : Z;
  log_transactionHash : string
}.

(** What [provider.on] has registered. *)
Inductive Listening : Type :=
| TokenLogs (address : string)
| Blocks.

(** What the listener emits on the event emitter. *)
Inductive Emitted : Type :=
| SubscribedToken (tokenAddress : string)
| SubscribedEth
| Transfer (e : TransferEvent).

Record t : Type := {
  config : ListenerConfig;
  provider : bool;
  isConnected : bool;
  listeners : list Listening;
  processedBlocks : list Z;
  tokenDecimals : Z;
  tokenSymbol : string;
  tokenName : string
}.

Definition set_listeners (l : list Listening) (self : t) : t :=
  {| config := config self; provider := provider self;
     isConnected := isConnected self; listeners := l;
     processedBlocks := processedBlocks self;
     tokenDecimals := tokenDecimals self; tokenSymbol := tokenSymbol self;
     tokenName := tokenName self |}.

Definition set_processedBlocks (b : list Z) (self : t) : t :=
  {| config := config self; provider := provider self;
     isConnected := isConnected self; listeners := listeners self;
     processedBlocks := b;
     tokenDecimals := tokenDecimals self; tokenSymbol := tokenSymbol self;
     tokenName := tokenName self |}.

Definition set_config (c : ListenerConfig) (self : t) : t :=
  {| config := c; provider := provider self;
     isConnected := isConnected self; listeners := listeners self;
     processedBlocks := processedBlocks self;
     tokenDecimals := tokenDecimals self; tokenSymbol := tokenSymbol self;
     tokenName := tokenName self |}.

Definition set_metadata (m : Z * string * string) (self : t) : t :=
  {| config := config self; provider := provider self;
     isConnected := isConnected self; listeners := listeners self;
     processedBlocks := processedBlocks self;
     tokenDecimals := m.1.1; tokenSymbol := m.1.2; tokenName := m.2 |}.

(** [isWatchedWallet(from, to)]; an address that is [null] or [undefined]
    lowercases to [undefined], which no list of strings includes. *)
Definition isWatchedWallet (self : t) (from to : option string) : bool :=
  let watched := default [] (watchedWallets (base (config self))) in
  if (length watched =? 0)%nat then true
  else
    let normalizedWatched :=
      List.map (fun w => toLowerCase (TransferFilter.wallet_address w))
               (List.filter TransferFilter.wallet_enabled watched) in
    let included (a : option string) :=
      match a with
      | Some x => bool_decide (toLowerCase x ∈ normalizedWatched)
      | None => false
      end in
    included from || included to.

(** [s || fallback] on an optional string. *)
Definition or_text (s : option string) (fallback : string) : string :=
  match s with
  | Some x => if String.eqb x "" then fallback else x
  | None => fallback
  end.


Section WithEthers.
(** [ethers.formatEther], [ethers.formatUnits], [ethers.isAddress] and
    [Interface.parseLog] ([None] when it throws or finds no event). *)
Variable formatEther : Z -> string.
Variable formatUnits : Z -> Z -> string.
Variable isAddress : string -> bool.
Variable parseLog : list string -> string -> option (string * string * Z).

(** The rendering of a bigint by [toString()]. *)
Variable toString : Z -> string.

(** [handleEthTransfer(tx, blockNumber)] *)
Definition handleEthTransfer (self : t) (now : Z) (tx : Tx) (blockNumber : Z)
    : list Emitted :=
  if negb (isWatchedWallet self (Some (tx_from tx)) (tx_to tx)) then []
  else
    let amount := formatEther (tx_value tx) in
    [Transfer
       {| e_type := "eth"; e_from := tx_from tx;
          e_to := or_text (tx_to tx) "Contract Creation";
          e_amount := JString amount; e_rawAmount := toString (tx_value tx);
          e_blockNumber := blockNumber; e_transactionHash := tx_hash tx;
          e_tokenSymbol := "ETH"; e_tokenName := "Ethereum";
          e_timestamp := now |}].

(** [handleTokenTransferEvent(log)] *)
Definition handleTokenTransferEvent (self : t) (now : Z) (log : Log)
    : list Emitted :=
  match parseLog (log_topics log) (log_data log) with
  | None => []
  | Some (from, to, rawAmount) =>
      if negb (isWatchedWallet self (Some from) (Some to)) then []
      else
        let amount := formatUnits rawAmount (tokenDecimals self) in
        [Transfer
           {| e_type := "token"; e_from := from; e_to := to;
              e_amount := JString amount; e_rawAmount := toString rawAmount;
              e_blockNumber := log_blockNumber log;
              e_transactionHash := log_transactionHash log;
              e_tokenSymbol := tokenSymbol self;
              e_tokenName := tokenName self; e_timestamp := now |}]
  end.

(** The loop of [processBlockForEthTransfers] over the transactions of the
    block; [clock i] is [Date.now()] for the transaction at position [i]. *)
Fixpoint processTransactions (self : t) (clock : nat -> Z) (i : nat)
    (txs : list Tx) (blockNumber : Z) : list Emitted :=
  match txs with
  | [] => []
  | tx :: rest =>
      ((if 0 <? tx_value tx
        then handleEthTransfer self (clock i) tx blockNumber else [])
       ++ processTransactions self clock (S i) rest blockNumber)%list
  end.

(** [processBlockForEthTransfers(blockNumber)]; [block] is [None] when
    [getBlock] throws, returns [null] or has no prefetched transactions. *)
Definition processBlockForEthTransfers (self : t) (clock : nat -> Z)
    (block : option (list Tx)) (blockNumber : Z) : list Emitted :=
  match block with
  | None => []
  | Some txs => processTransactions self clock 0 txs blockNumber
  end.

(** [subscribeToTokenTransfers()] *)
Definition subscribeToTokenTransfers (self : t) : t * list Emitted :=
  let tokenAddress := tokenContract (base (config self)) in
  if String.eqb tokenAddress "" || negb (isAddress tokenAddress) then
    (self, [])
  else
    (set_listeners (listeners self ++ [TokenLogs tokenAddress])%list self,
     [SubscribedToken tokenAddress]).

(** [subscribeToEthTransfers()] *)
Definition subscribeToEthTransfers (self : t) : t * list Emitted :=
  (set_listeners (listeners self ++ [Blocks])%list self, [SubscribedEth]).

(** [subscribe()] *)
Definition subscribe (self : t) : bool * t * list Emitted :=
  if negb (provider self) || negb (isConnected self) then (false, self, [])
  else
    let mode := or_text (trackingMode (config self)) "all" in
    let (self, e1) :=
      if String.eqb mode "token" || String.eqb mode "all"
      then subscribeToTokenTransfers self else (self, []) in
    let (self, e2) :=
      if String.eqb mode "eth" || String.eqb mode "all"
      then subscribeToEthTransfers self else (self, []) in
    (true, self, (e1 ++ e2)%list).

(** [updateConfig(newConfig)]; [metadata] is what [fetchTokenMetadata]
    finds ([None] when it gives up and keeps the old values). *)
Definition updateConfig (self : t) (newConfig : ListenerConfig)
    (metadata : option (Z * string * string)) : t * list Emitted :=
  let tokenChanged :=
    negb (String.eqb (tokenContract (base (config self)))
                     (tokenContract (base newConfig))) in
  let modeChanged :=
    negb (bool_decide (trackingMode (config self) = trackingMode newConfig)) in
  let self := set_config newConfig self in
  if (tokenChanged || modeChanged) && provider self then
    let self := set_listeners [] self in
    let self := set_processedBlocks [] self in
    let self :=
      match metadata with
      | Some m => set_metadata m self
      | None => self
      end in
    let '(_, self, emitted) := subscribe self in
    (self, emitted)
  else (self, []).

End WithEthers.

End Listener.

(** ** ConfigWatcher: what changed between two configurations *)

Module ConfigChanges.
Import ConfigWatcher.

(** The own properties of a value: those of an object, none for a
    primitive. *)
Definition fields_of (c : Json) : list (string * Json) :=
  match c with
  | JObj fields => fields
  | _ => []
  end.

(** [new Set(keys)]: the keys in order of first appearance. *)
Fixpoint key_set (seen : list string) (keys : list string) : list string :=
  match keys with
  | [] => seen
  | k :: rest => key_set (TransferFilter.set_add k seen) rest
  end.

Section WithStringify.
(** [JSON.stringify] on a parsed document. *)
Variable JSON_stringify : Json -> string.

(** [JSON.stringify(config[key])]: [None] is [undefined], for a missing
    key. *)
Definition stringify_field (key : string) (fields : list (string * Json))
    : option string :=
  option_map JSON_stringify (lookup_field key fields).

(** [getChangedFields(oldConfig, newConfig)]; [oldConfig] is [None] when
    it is falsy. *)
Definition getChangedFields (oldConfig : option (list (string * Json)))
    (newConfig : list (string * Json)) : list string :=
  match oldConfig with
  | None => List.map fst newConfig
  | Some old =>
      let allKeys :=
        key_set [] (List.map fst old ++ List.map fst newConfig)%list in
      List.filter
        (fun key =>
           negb (bool_decide (stringify_field key old
                              = stringify_field key newConfig)))
        allKeys
  end.

(** The [changedFields] of the event that [handleConfigChange] emits. *)
Definition changedFields (ch : ConfigChange) : list string :=
  getChangedFields (Some (fields_of (oldConfig ch))) (fields_of (newConfig ch)).

End WithStringify.

(** The optional fields that [validateConfig] fills in. *)
Definition optional : list string :=
  ["thresholdAmount"; "watchedWallets"; "cooldownSeconds"; "telegramChatId";
   "confirmationDepth"].

(** What the watcher can hold: nothing yet, or a document that
    [validateConfig] accepts and leaves as it is. *)
Definition stored_ok (w : t) : Prop :=
  match config w with
  | None => True
  | Some c =>
      validateConfig c = Some c /\
      json_truthy (default None (get c "tokenContract")) = true
  end.

(** [loadConfig()] called once for each state of the file, in order. *)
Fixpoint loadAll (JSON_parse : string -> option Json) (files : list File)
    (w : t) : t :=
  match files with
  | [] => w
  | file :: rest => loadAll JSON_parse rest (loadConfig JSON_parse file w).2
  end.

End ConfigChanges.

(** ** TelegramNotifier: switching the bot on and off *)

Module NotifierLifecycle.
Import TelegramNotifier.

(** ToBoolean on a configuration value. *)
Definition value_truthy (v : JsValue) : bool :=
  match v with
  | JUndefined => false
  | JNumber n => truthy n
  | JString s => negb (String.eqb s "")
  end.

(** ToBoolean on an optional string: absent and empty are falsy. *)
Definition text_truthy (s : option string) : bool :=
  match s with
  | Some x => negb (String.eqb x "")
  | None => false
  end.

(** [initialize()]: [token] is [process.env.TELEGRAM_BOT_TOKEN], [chatId]
    is [config.telegramChatId], [created] tells whether [new TelegramBot]
    returned rather than threw. *)
Definition initialize (token : option string) (chatId : JsValue)
    (created : bool) (self : t) : bool * t :=
  let disabled :=
    {| isEnabled := false; bot := bot self;
       lastAlertSent := lastAlertSent self; alertCount := alertCount self |} in
  if negb (text_truthy token) then (false, disabled)
  else if negb (value_truthy chatId) then (false, disabled)
  else if created then
    (true,
     {| isEnabled := true; bot := true;
        lastAlertSent := lastAlertSent self; alertCount := alertCount self |})
  else (false, disabled).

(** [destroy()] *)
Definition destroy (self : t) : t :=
  {| isEnabled := false; bot := false;
     lastAlertSent := lastAlertSent self; alertCount := alertCount self |}.

(** The time [sendAlert] spends pausing. *)
Definition total_pause (acts : list Action) : Z :=
  foldr Z.add 0 (pauses acts).

End NotifierLifecycle.

(** ** EventStorage: reading the history *)

Module EventStorage.
Import ChainWatch.

(** [getEvents(limit)] *)
Definition getEvents (limit : nat) (events : list StoredEvent)
    : list StoredEvent :=
  take limit events.

(** [getEventsForWallet(walletAddress, limit)] *)
Definition getEventsForWallet (walletAddress : string) (limit : nat)
    (events : list StoredEvent) : list StoredEvent :=
  let normalized := toLowerCase walletAddress in
  take limit
    (List.filter
       (fun e =>
          String.eqb (toLowerCase (e_from (event (stored e)))) normalized ||
          String.eqb (toLowerCase (e_to (event (stored e)))) normalized)
       events).

(** [addEvent] for each event of a list, oldest first, each with its own
    [storedAt]. *)
Fixpoint addAll (es : list (Z * EventWithMeta)) (events : list StoredEvent)
    : list StoredEvent :=
  match es with
  | [] => events
  | (now, e) :: rest => addAll rest (addEvent now e events)
  end.

(** [recentEvents.push] with its trimming, for each event of a list. *)
Fixpoint pushAll (es : list EventWithMeta) (events : list EventWithMeta)
    : list EventWithMeta :=
  match es with
  | [] => events
  | e :: rest => pushAll rest (pushRecent e events)
  end.

End EventStorage.

(** ** WebSocketBroadcaster: the keepalive of one client *)

Module Keepalive.

(** The [isAlive] flag of a socket: never set, [true] or [false]. *)
Inductive Flag : Type :=
| Unset
| Alive
| Waiting.

(** A socket is connected with some flag, or has been terminated. *)
Inductive Socket : Type :=
| Connected (isAlive : Flag)
| Terminated.

(** What happens to a socket: the 30-second interval fires, or a pong
    arrives. *)
Inductive Event : Type :=
| Tick
| Pong.

(** What the server does to the socket. *)
Inductive Action : Type :=
| Ping
| Terminate.

(** The body of the interval for one socket, and the [pong] handler. *)
Definition step (s : Socket) (e : Event) : Socket * list Action :=
  match s, e with
  | Terminated, _ => (Terminated, [])
  | Connected Waiting, Tick => (Terminated, [Terminate])
  | Connected _, Tick => (Connected Waiting, [Ping])
  | Connected _, Pong => (Connected Alive, [])
  end.

Fixpoint run (s : Socket) (events : list Event) : Socket :=
  match events with
  | [] => s
  | e :: rest => run (step s e).1 rest
  end.

(** Two ticks in a row, with no pong between them. *)
Fixpoint silent_interval (events : list Event) : bool :=
  match events with
  | Tick :: (Tick :: _) as rest => true
  | _ :: rest => silent_interval rest
  | [] => false
  end.

End Keepalive.

(** ** AlertRulesEngine: comparing, and counting transactions *)

Module AlertRules.

(** [a === b] on numbers. *)
Definition js_eq (a b : JsNum) : bool :=
  match a, b with
  | NegInf, NegInf => true
  | PosInf, PosInf => true
  | Fin x, Fin y => Qeq_bool x y
  | _, _ => false
  end.

(** [a <= b] on numbers: false when one side is [NaN], otherwise the
    negation of [b < a]. *)
Definition js_le (a b : JsNum) : bool :=
  match a, b with
  | NaN, _ | _, NaN => false
  | _, _ => negb (js_lt b a)
  end.

(** [compareValues(value, operator, threshold)], for a threshold that is a
    number. *)
Definition compareValues (value : JsNum) (operator : string)
    (threshold : JsNum) : bool :=
  if String.eqb operator ">" then js_lt threshold value
  else if String.eqb operator "<" then js_lt value threshold
  else if String.eqb operator ">=" then js_le threshold value
  else if String.eqb operator "<=" then js_le value threshold
  else if String.eqb operator "==" then js_eq value threshold
  else if String.eqb operator "!=" then negb (js_eq value threshold)
  else false.

(** The fields of a rule that the transaction-count check reads. *)
Record Rule : Type := {
  walletAddress : option string;
  timeframe : option string;
  operator : string;
  threshold : JsNum
}.

(** An entry of [transactionCounts]. *)
Record Counter : Type := {
  count : Z;
  firstTx : Z
}.

Section WithTimeframe.
(** [parseTimeframe], a number of milliseconds. *)
Variable parseTimeframe : string -> JsNum.

(** The key of a rule in [transactionCounts]. *)
Definition key (wallet : string) (rule : Rule) : string :=
  wallet ++ "_" ++ Listener.or_text (timeframe rule) "1h".

(** [evaluateTransactionCountRule(rule, event)]; [tCreate], [tCheck] and
    [tReset] are the readings of [Date.now()] when the entry is created,
    when the timeframe is checked and when the counter restarts.  The
    entry is updated in place. *)
Definition evaluateTransactionCountRule (counts : gmap string Counter)
    (rule : Rule) (tCreate tCheck tReset : Z)
    : bool * gmap string Counter :=
  match walletAddress rule with
  | None => (false, counts)
  | Some address =>
      let wallet := toLowerCase address in
      if String.eqb wallet "" then (false, counts)
      else
        let k := key wallet rule in
        let data :=
          match counts !! k with
          | Some d => d
          | None => {| count := 0; firstTx := tCreate |}
          end in
        let data := {| count := count data + 1; firstTx := firstTx data |} in
        let timeframeMs :=
          parseTimeframe (Listener.or_text (timeframe rule) "1h") in
        let data :=
          if js_lt timeframeMs (Fin (inject_Z (tCheck - firstTx data)))
          then {| count := 1; firstTx := tReset |}
          else data in
        (compareValues (Fin (inject_Z (count data))) (operator rule)
                       (threshold rule),
         <[k := data]> counts)
  end.

(** The rule evaluated for one event after the other; each evaluation
    reads the clock three times. *)
Fixpoint evaluateAll (counts : gmap string Counter) (rule : Rule)
    (clock : list (Z * Z * Z)) : list bool * gmap string Counter :=
  match clock with
  | [] => ([], counts)
  | (tCreate, tCheck, tReset) :: rest =>
      let (b, counts) :=
        evaluateTransactionCountRule counts rule tCreate tCheck tReset in
      let (bs, counts) := evaluateAll counts rule rest in
      (b :: bs, counts)
  end.

End WithTimeframe.

End AlertRules.

(** ** A reference engine

    One instance of the built-ins, enough to run the pipeline on plain
    decimal text ([-]digits[.digits]): it is what the examples below
    evaluate with.  The theorems hold for every instance. *)

Module Engine.

Definition digit (c : ascii) : option Z :=
  let n := Z.of_nat (nat_of_ascii c) in
  if (48 <=? n) && (n <=? 57) then Some (n - 48) else None.

(** The leading digits of [s]: their value, how many, and what follows. *)
Fixpoint digits (s : string) (acc : Z) (count : nat) : Z * nat * string :=
  match s with
  | EmptyString => (acc, count, s)
  | String c rest =>
      match digit c with
      | Some d => digits rest (10 * acc + d) (S count)
      | None => (acc, count, s)
      end
  end.

Definition signed (s : string) : bool * string :=
  match s with
  | String "-"%char rest => (true, rest)
  | _ => (false, s)
  end.

Definition parseFloat_text (s : string) : JsNum :=
  let '(neg, s) := signed s in
  let '(ip, ni, rest) := digits s 0 0 in
  let '(fp, nf) :=
    match rest with
    | String "."%char r => let '(v, n, _) := digits r 0 0 in (v, n)
    | _ => (0, 0%nat)
    end in
  if (ni + nf =? 0)%nat then NaN
  else
    let scale := 10 ^ Z.of_nat nf in
    let q := Qmake (ip * scale + fp) (Z.to_pos scale) in
    Fin (if neg then Qopp q else q).

Definition parseInt_text (s : string) : option Z :=
  let '(neg, s) := signed s in
  let '(ip, ni, _) := digits s 0 0 in
  if (ni =? 0)%nat then None else Some (if neg then - ip else ip).

#[export] Instance builtins : Builtins := {|
  parseFloat v :=
    match v with
    | JUndefined => NaN
    | JNumber n => n
    | JString s => parseFloat_text s
    end;
  parseInt v :=
    match v with
    | JUndefined => None
    | JNumber (Fin q) => Some (Z.quot (Qnum q) (Zpos (Qden q)))
    | JNumber _ => None
    | JString s => parseInt_text s
    end;
  parseFloat_undefined := eq_refl;
  parseInt_undefined := eq_refl
|}.

End Engine.

(** ** Sample data

    The scenario of the specification: threshold 0, one watched wallet, a
    cooldown of 60 seconds, and transfers between the wallet and another
    address. *)

Module Samples.
Import Engine.

Definition transfer (from to amount hash : string) : TransferEvent :=
  {| e_type := "token"; e_from := from; e_to := to;
     e_amount := JString amount; e_rawAmount := amount; e_blockNumber := 1;
     e_transactionHash := hash; e_tokenSymbol := "TOKEN";
     e_tokenName := "Unknown Token"; e_timestamp := 0 |}.

Definition cfg : Config :=
  {| tokenContract := "0xC0"; thresholdAmount := JNumber (Fin 0);
     watchedWallets := Some [WString "0xAA"];
     cooldownSeconds := JNumber (Fin 60) |}.

(** The same with a threshold of 10 and no watch list: [thresholdAmount]
    is given as text, [watchedWallets] is missing. *)
Definition cfg10 : Config :=
  {| tokenContract := "0xC0"; thresholdAmount := JString "10";
     watchedWallets := None; cooldownSeconds := JNumber (Fin 60) |}.

Definition event1 : TransferEvent := transfer "0xaa" "0xBB" "5" "0x111".
Definition event2 : TransferEvent := transfer "0xaa" "0xBB" "5" "0x111".
Definition event3 : TransferEvent := transfer "0xaa" "0xBB" "5" "0x222".
Definition event4 : TransferEvent := transfer "0xaa" "0xBB" "5" "0x333".
Definition stranger : TransferEvent := transfer "0xCC" "0xDD" "5" "0x444".

Definition s0 : TransferFilter.t := TransferFilter.new cfg.

(** Clock readings, in milliseconds. *)
Definition t0 : Z := 1700000000000.

(** Two documents for config.json, one valid and one without
    [tokenContract], and a stand-in for [JSON.parse] that knows the files
    holding them; any other content does not parse. *)
Definition valid_json : ConfigWatcher.Json :=
  ConfigWatcher.JObj
    [("tokenContract", ConfigWatcher.JStr "0xC0");
     ("thresholdAmount", ConfigWatcher.JNum (Fin 5))].

Definition no_token_json : ConfigWatcher.Json :=
  ConfigWatcher.JObj [("thresholdAmount", ConfigWatcher.JNum (Fin 5))].

Definition JSON_parse (content : string) : option ConfigWatcher.Json :=
  if String.eqb content "valid.json" then Some valid_json
  else if String.eqb content "no-token.json" then Some no_token_json
  else None.

(** A watcher that has loaded the valid document. *)
Definition loaded : ConfigWatcher.t :=
  (ConfigWatcher.loadConfig JSON_parse (ConfigWatcher.Readable "valid.json")
     ConfigWatcher.new).2.

(** A bot whose every call fails, with a network error at the first
    attempt and a plain error afterwards; and one that never fails. *)
Definition flaky (attempt : nat) : TelegramNotifier.Outcome :=
  TelegramNotifier.Threw
    {| TelegramNotifier.message :=
         Some (if (attempt =? 1)%nat then "read ECONNRESET"
               else "400 Bad Request");
       TelegramNotifier.code := None |}.

Definition reliable (attempt : nat) : TelegramNotifier.Outcome :=
  TelegramNotifier.Sent.

Definition notifier0 : TelegramNotifier.t :=
  {| TelegramNotifier.isEnabled := true; TelegramNotifier.bot := true;
     TelegramNotifier.lastAlertSent := None;
     TelegramNotifier.alertCount := 0 |}.

Definition app0 : ChainWatch.t :=
  {| ChainWatch.filter := s0; ChainWatch.notifier := notifier0;
     ChainWatch.recentEvents := []; ChainWatch.storage := [];
     ChainWatch.wsServer := Some []; ChainWatch.telegram := [] |}.

Definition env0 : ChainWatch.Env :=
  {| ChainWatch.tCheck := t0; ChainWatch.tUpdate := t0;
     ChainWatch.tProcessed := t0; ChainWatch.tStored := t0;
     ChainWatch.tBroadcast := t0; ChainWatch.tAlert := t0;
     ChainWatch.tAlertSent := t0;
     ChainWatch.enrich := fun _ =>
       {| ChainWatch.category := None; ChainWatch.priceInfo := None;
          ChainWatch.triggeredRules := [] |};
     ChainWatch.sendMessage := reliable |}.

End Samples.

(** ** More sample data

    Inputs for the listener, the rules engine, the storage and the
    lifecycle of the notifier. *)

Module MoreSamples.

(** A filter whose seen-set of two hashes is full. *)
Definition full : TransferFilter.t :=
  {| TransferFilter.config := Samples.cfg;
     TransferFilter.processedTxHashes := ["0xa"; "0xb"];
     TransferFilter.lastAlertTime := ∅;
     TransferFilter.maxCacheSize := 2 |}.


(** A configuration without [cooldownSeconds]. *)
Definition cfg_no_cooldown : Config :=
  {| tokenContract := "0xC0"; thresholdAmount := JNumber (Fin 0);
     watchedWallets := None; cooldownSeconds := JUndefined |}.

(** A connected listener that watches what [Samples.cfg] watches and has
    scanned two blocks. *)
Definition listener0 : Listener.t :=
  {| Listener.config :=
       {| Listener.base := Samples.cfg; Listener.trackingMode := None |};
     Listener.provider := true; Listener.isConnected := true;
     Listener.listeners := [Listener.Blocks];
     Listener.processedBlocks := [1; 2];
     Listener.tokenDecimals := 18; Listener.tokenSymbol := "TOKEN";
     Listener.tokenName := "Unknown Token" |}.

(** Stand-ins for [ethers.formatEther] and [toString()]. *)
Definition formatEther (wei : Z) : string := "1.0".
Definition formatUnits (raw decimals : Z) : string := "1.0".
Definition parseLog (topics : list string) (data : string)
    : option (string * string * Z) := None.
Definition toString (n : Z) : string := "1000000000000000000".

(** One ether from a watched wallet, and the event the listener builds
    for it. *)
Definition tx0 : Listener.Tx :=
  {| Listener.tx_from := "0xAA"; Listener.tx_to := Some "0xBB";
     Listener.tx_value := 1000000000000000000; Listener.tx_hash := "0x111" |}.

Definition emitted0 : TransferEvent :=
  {| e_type := "eth"; e_from := "0xAA"; e_to := "0xBB";
     e_amount := JString "1.0"; e_rawAmount := "1000000000000000000";
     e_blockNumber := 3; e_transactionHash := "0x111";
     e_tokenSymbol := "ETH"; e_tokenName := "Ethereum";
     e_timestamp := Samples.t0 |}.

(** The valid document of [Samples] after [validateConfig]. *)
Definition validated : ConfigWatcher.Json :=
  ConfigWatcher.JObj
    [("tokenContract", ConfigWatcher.JStr "0xC0");
     ("thresholdAmount", ConfigWatcher.JNum (Fin 5));
     ("watchedWallets", ConfigWatcher.JArr []);
     ("cooldownSeconds", ConfigWatcher.JNum (Fin 0));
     ("telegramChatId", ConfigWatcher.JStr "");
     ("confirmationDepth", ConfigWatcher.JNum (Fin 0))].

(** A stand-in for [JSON.stringify] that tells the kinds of values
    apart. *)
Definition JSON_stringify (v : ConfigWatcher.Json) : string :=
  match v with
  | ConfigWatcher.JNull => "null"
  | ConfigWatcher.JBool true => "true"
  | ConfigWatcher.JBool false => "false"
  | ConfigWatcher.JNum _ => "0"
  | ConfigWatcher.JStr s => s
  | ConfigWatcher.JArr _ => "[]"
  | ConfigWatcher.JObj _ => "{}"
  end.

(** A bot that fails once with a network error and then delivers. *)
Definition network_error : TelegramNotifier.Error :=
  {| TelegramNotifier.message := Some "read ECONNRESET";
     TelegramNotifier.code := None |}.

Definition recovers (attempt : nat) : TelegramNotifier.Outcome :=
  if (attempt =? 1)%nat then TelegramNotifier.Threw network_error
  else TelegramNotifier.Sent.

(** Two events as the handler hands them to the sinks. *)
Definition with_meta (e : TransferEvent) : ChainWatch.EventWithMeta :=
  {| ChainWatch.event := e; ChainWatch.filterResult := ok;
     ChainWatch.meta := ChainWatch.enrich Samples.env0 e;
     ChainWatch.processedAt := Samples.t0 |}.

(** A rule that fires from the third transaction of a wallet within the
    default timeframe, and a [parseTimeframe] that knows that timeframe. *)
Definition rule0 : AlertRules.Rule :=
  {| AlertRules.walletAddress := Some "0xAA";
     AlertRules.timeframe := None;
     AlertRules.operator := ">=";
     AlertRules.threshold := Fin 3 |}.

Definition parseTimeframe (timeframe : string) : JsNum := Fin 3600000.

End MoreSamples.

(** * Properties *)

(** ** Numbers and strings *)

(** Against a threshold that is a number, [n || 0] compares as [n]. *)
Lemma js_lt_or_zero (a t : JsNum) :
  a <> NaN -> t <> NaN -> js_lt a (or_zero t) = false <-> at_least a t.
Proof.
  intros Ha Ht. unfold or_zero.
  destruct t as [| |y|]; try done; simpl.
  - destruct a; simpl; try done.
  - destruct (Qeq_bool y 0) eqn:E; simpl.
    + apply Qeq_bool_iff in E.
      destruct a as [| |x|]; simpl; try done.
      rewrite negb_false_iff, Qle_bool_iff, E. reflexivity.
    + destruct a as [| |x|]; simpl; try done.
      rewrite negb_false_iff, Qle_bool_iff. reflexivity.
  - destruct a; simpl; try done.
Qed.

Lemma at_least_trans (a t2 t1 : JsNum) :
  at_least a t2 -> at_least t2 t1 -> at_least a t1.
Proof.
  destruct a as [| |x|], t2 as [| |y|], t1 as [| |z|]; simpl; try done.
  intros H1 H2. by apply Qle_trans with y.
Qed.

Lemma lower_ascii_idem (c : ascii) : lower_ascii (lower_ascii c) = lower_ascii c.
Proof.
  destruct c as [[] [] [] [] [] [] [] []]; reflexivity.
Qed.

Lemma toLowerCase_idem (s : string) : toLowerCase (toLowerCase s) = toLowerCase s.
Proof.
  induction s as [|c s IH]; simpl; [done|]. by rewrite lower_ascii_idem, IH.
Qed.

Example same_address_mixed_case : same_address "0xAbCdEf09" "0xaBcDeF09".
Proof. reflexivity. Qed.

(** ** The filter chain *)

Section FilterChain.
Context {B : Builtins}.

Lemma set_add_elem (h : string) (l : list string) :
  h ∈ TransferFilter.set_add h l.
Proof.
  unfold TransferFilter.set_add. case_bool_decide; [done|].
  apply elem_of_app. right. by apply list_elem_of_singleton.
Qed.

Lemma set_add_keeps (h h' : string) (l : list string) :
  h' ∈ l -> h' ∈ TransferFilter.set_add h l.
Proof.
  intros Hin. unfold TransferFilter.set_add. case_bool_decide; [done|].
  apply elem_of_app. by left.
Qed.

Lemma set_add_length (h : string) (l : list string) :
  (length (TransferFilter.set_add h l) <= S (length l))%nat.
Proof.
  unfold TransferFilter.set_add. case_bool_decide; [lia|].
  rewrite length_app. simpl. lia.
Qed.

Lemma markProcessed_elem (h : string) (s : TransferFilter.t) :
  h ∈ TransferFilter.processedTxHashes (TransferFilter.markProcessed h s).
Proof. unfold TransferFilter.markProcessed. simpl. apply set_add_elem. Qed.

Lemma markProcessed_config (h : string) (s : TransferFilter.t) :
  TransferFilter.config (TransferFilter.markProcessed h s)
  = TransferFilter.config s.
Proof. reflexivity. Qed.

Lemma markProcessed_lastAlertTime (h : string) (s : TransferFilter.t) :
  TransferFilter.lastAlertTime (TransferFilter.markProcessed h s)
  = TransferFilter.lastAlertTime s.
Proof. reflexivity. Qed.

(** Below capacity nothing is evicted. *)
Lemma markProcessed_keeps (h h' : string) (s : TransferFilter.t) :
  Z.of_nat (length (TransferFilter.processedTxHashes s))
    < TransferFilter.maxCacheSize s ->
  h' ∈ TransferFilter.processedTxHashes s ->
  h' ∈ TransferFilter.processedTxHashes (TransferFilter.markProcessed h s).
Proof.
  intros Hlt Hin. unfold TransferFilter.markProcessed. simpl.
  destruct (Z.leb_spec (TransferFilter.maxCacheSize s)
              (Z.of_nat (length (TransferFilter.processedTxHashes s)))); [lia|].
  by apply set_add_keeps.
Qed.

Lemma markProcessed_length (h : string) (s : TransferFilter.t) :
  (length (TransferFilter.processedTxHashes (TransferFilter.markProcessed h s))
   <= S (length (TransferFilter.processedTxHashes s)))%nat.
Proof.
  unfold TransferFilter.markProcessed. simpl.
  destruct (_ <=? _).
  - etransitivity; [apply set_add_length|]. rewrite length_drop. lia.
  - apply set_add_length.
Qed.

(** Each check either passes with the bare [{ passed: true }] or fails with
    its own reason. *)
Lemma checkThreshold_cases (s : TransferFilter.t) (amount : JsValue) :
  TransferFilter.checkThreshold s amount = ok \/
  TransferFilter.checkThreshold s amount = failing below_threshold.
Proof. unfold TransferFilter.checkThreshold. destruct (js_lt _ _); auto. Qed.

Lemma checkWatchedWallets_cases (s : TransferFilter.t) (from to : string) :
  TransferFilter.checkWatchedWallets s from to = ok \/
  TransferFilter.checkWatchedWallets s from to = failing not_watched.
Proof.
  unfold TransferFilter.checkWatchedWallets.
  destruct (_ =? _)%nat; auto. destruct (_ && _); auto.
Qed.

Lemma checkCooldown_loop_cases (s : TransferFilter.t) (now ms : Z)
    (addresses : list string) :
  TransferFilter.checkCooldown_loop s now ms addresses = ok \/
  TransferFilter.checkCooldown_loop s now ms addresses = failing cooldown.
Proof.
  induction addresses as [|a rest IH]; simpl; auto.
  destruct (TransferFilter.in_cooldown s now ms a); auto.
Qed.

Lemma checkCooldown_cases (s : TransferFilter.t) (now : Z) (from to : string) :
  TransferFilter.checkCooldown s now from to = ok \/
  TransferFilter.checkCooldown s now from to = failing cooldown.
Proof.
  unfold TransferFilter.checkCooldown.
  destruct (_ =? _); auto. apply checkCooldown_loop_cases.
Qed.


(** The outcome of [filter] on a hash that is new, check by check. *)
Lemma filter_fresh (s : TransferFilter.t) (tc tu : Z) (e : TransferEvent) :
  e_transactionHash e ∉ TransferFilter.processedTxHashes s ->
  let s1 := TransferFilter.markProcessed (e_transactionHash e) s in
  (TransferFilter.filter s tc tu e
     = ({| passed := false; showInUI := Some true;
           reason := Some below_threshold |}, s1) /\
   TransferFilter.checkThreshold s1 (e_amount e) = failing below_threshold)
  \/
  (TransferFilter.filter s tc tu e
     = ({| passed := false; showInUI := Some true;
           reason := Some not_watched |}, s1) /\
   TransferFilter.checkThreshold s1 (e_amount e) = ok /\
   TransferFilter.checkWatchedWallets s1 (e_from e) (e_to e)
     = failing not_watched)
  \/
  (TransferFilter.filter s tc tu e
     = ({| passed := false; showInUI := Some true;
           reason := Some cooldown |}, s1) /\
   TransferFilter.checkThreshold s1 (e_amount e) = ok /\
   TransferFilter.checkWatchedWallets s1 (e_from e) (e_to e) = ok /\
   TransferFilter.checkCooldown s1 tc (e_from e) (e_to e) = failing cooldown)
  \/
  (TransferFilter.filter s tc tu e
     = ({| passed := true; showInUI := Some true; reason := Some matched |},
        TransferFilter.updateCooldown tu (e_from e) (e_to e) s1) /\
   TransferFilter.checkThreshold s1 (e_amount e) = ok /\
   TransferFilter.checkWatchedWallets s1 (e_from e) (e_to e) = ok /\
   TransferFilter.checkCooldown s1 tc (e_from e) (e_to e) = ok).
Proof.
  intros Hnew s1. unfold TransferFilter.filter, TransferFilter.isDuplicate.
  rewrite bool_decide_eq_false_2 by done. fold s1.
  destruct (checkThreshold_cases s1 (e_amount e)) as [Ht|Ht]; rewrite Ht; simpl;
    [|by left].
  destruct (checkWatchedWallets_cases s1 (e_from e) (e_to e)) as [Hw|Hw];
    rewrite Hw; simpl; [|by right; left].
  destruct (checkCooldown_cases s1 tc (e_from e) (e_to e)) as [Hc|Hc];
    rewrite Hc; simpl; [by do 3 right | by right; right; left].
Qed.

Lemma filter_duplicate (s : TransferFilter.t) (tc tu : Z) (e : TransferEvent) :
  e_transactionHash e ∈ TransferFilter.processedTxHashes s ->
  TransferFilter.filter s tc tu e = (duplicate_verdict, s).
Proof.
  intros Hin. unfold TransferFilter.filter, TransferFilter.isDuplicate.
  by rewrite bool_decide_eq_true_2.
Qed.

End FilterChain.

Section FilterState.
Context {B : Builtins}.

(** [filter] never touches the configuration or the capacity. *)
Lemma filter_config (s : TransferFilter.t) (tc tu : Z) (e : TransferEvent) :
  TransferFilter.config (TransferFilter.filter s tc tu e).2
  = TransferFilter.config s /\
  TransferFilter.maxCacheSize (TransferFilter.filter s tc tu e).2
  = TransferFilter.maxCacheSize s.
Proof.
  destruct (decide (e_transactionHash e ∈ TransferFilter.processedTxHashes s))
    as [Hin|Hnew].
  - by rewrite filter_duplicate.
  - destruct (filter_fresh s tc tu e Hnew) as [[-> _]|[[-> _]|[[-> _]|[-> _]]]];
      done.
Qed.

(** A hash of the seen-set survives [filter] while the set is below
    capacity, and the set grows by one hash at most. *)
Lemma filter_hashes (s : TransferFilter.t) (tc tu : Z) (e : TransferEvent)
    (h : string) :
  Z.of_nat (length (TransferFilter.processedTxHashes s))
    < TransferFilter.maxCacheSize s ->
  h ∈ TransferFilter.processedTxHashes s ->
  h ∈ TransferFilter.processedTxHashes (TransferFilter.filter s tc tu e).2.
Proof.
  intros Hlt Hin.
  destruct (decide (e_transactionHash e ∈ TransferFilter.processedTxHashes s))
    as [Hdup|Hnew].
  - by rewrite filter_duplicate.
  - pose proof (markProcessed_keeps (e_transactionHash e) h s Hlt Hin) as Hk.
    destruct (filter_fresh s tc tu e Hnew) as [[-> _]|[[-> _]|[[-> _]|[-> _]]]];
      done.
Qed.

Lemma filter_length (s : TransferFilter.t) (tc tu : Z) (e : TransferEvent) :
  (length (TransferFilter.processedTxHashes (TransferFilter.filter s tc tu e).2)
   <= S (length (TransferFilter.processedTxHashes s)))%nat.
Proof.
  destruct (decide (e_transactionHash e ∈ TransferFilter.processedTxHashes s))
    as [Hdup|Hnew].
  - rewrite filter_duplicate by done. simpl. lia.
  - pose proof (markProcessed_length (e_transactionHash e) s) as Hk.
    destruct (filter_fresh s tc tu e Hnew) as [[-> _]|[[-> _]|[[-> _]|[-> _]]]];
      done.
Qed.

(** A seen hash is still there after any run of events that leaves the set
    within its capacity: eviction only starts at [maxCacheSize]. *)
Lemma run_keeps_hash (mid : list (Z * Z * TransferEvent))
    (s : TransferFilter.t) (h : string) :
  Z.of_nat (length (TransferFilter.processedTxHashes s) + length mid)
    <= TransferFilter.maxCacheSize s ->
  h ∈ TransferFilter.processedTxHashes s ->
  h ∈ TransferFilter.processedTxHashes (TransferFilter.run s mid).2.
Proof.
  revert s. induction mid as [|[[tc tu] e] mid IH]; intros s Hcap Hin; [done|].
  simpl in *.
  destruct (TransferFilter.filter s tc tu e) as [r s1] eqn:E.
  assert (Hs1 : s1 = (TransferFilter.filter s tc tu e).2) by by rewrite E.
  specialize (IH s1).
  destruct (TransferFilter.run s1 mid) as [rs s2]. simpl in *.
  apply IH.
  - pose proof (filter_length s tc tu e) as Hl.
    destruct (filter_config s tc tu e) as [_ Hm].
    rewrite <- Hs1 in Hl, Hm. rewrite Hm. lia.
  - rewrite Hs1. apply filter_hashes; [lia|done].
Qed.

(** After [updateCooldown] both addresses carry the new timestamp: an entry
    just written is never among the hour-old ones that are pruned. *)
Lemma updateCooldown_from (now : Z) (from to : string) (s : TransferFilter.t) :
  TransferFilter.lastAlertTime (TransferFilter.updateCooldown now from to s)
    !! toLowerCase from = Some now.
Proof.
  unfold TransferFilter.updateCooldown. simpl.
  apply map_lookup_filter_Some. split; [|simpl; lia].
  destruct (decide (toLowerCase to = toLowerCase from)) as [->|Hne].
  - apply lookup_insert_eq.
  - rewrite lookup_insert_ne by done. apply lookup_insert_eq.
Qed.

Lemma updateCooldown_to (now : Z) (from to : string) (s : TransferFilter.t) :
  TransferFilter.lastAlertTime (TransferFilter.updateCooldown now from to s)
    !! toLowerCase to = Some now.
Proof.
  unfold TransferFilter.updateCooldown. simpl.
  apply map_lookup_filter_Some. split; [|simpl; lia].
  apply lookup_insert_eq.
Qed.

Lemma updateCooldown_config (now : Z) (from to : string) (s : TransferFilter.t) :
  TransferFilter.config (TransferFilter.updateCooldown now from to s)
  = TransferFilter.config s.
Proof. reflexivity. Qed.

(** An address with a non-zero timestamp [T] holds an event back exactly
    while less than [ms] milliseconds have gone by. *)
Lemma in_cooldown_stamp (s : TransferFilter.t) (now ms T : Z) (a : string) :
  TransferFilter.lastAlertTime s !! a = Some T -> T <> 0 ->
  TransferFilter.in_cooldown s now ms a = bool_decide (now - T < ms).
Proof.
  intros Hl HT. unfold TransferFilter.in_cooldown. rewrite Hl.
  destruct (Z.eqb_spec T 0); [done|]. simpl.
  destruct (Z.ltb_spec (now - T) ms).
  - by rewrite bool_decide_eq_true_2.
  - rewrite bool_decide_eq_false_2; [done|lia].
Qed.

Lemma checkCooldown_active (s : TransferFilter.t) (c now : Z) (from to : string) :
  parseInt (cooldownSeconds (TransferFilter.config s)) = Some c -> c <> 0 ->
  TransferFilter.checkCooldown s now from to
  = TransferFilter.checkCooldown_loop s now (c * 1000)
      [toLowerCase from; toLowerCase to].
Proof.
  intros Hc Hnz. unfold TransferFilter.checkCooldown. rewrite Hc. simpl.
  by destruct (Z.eqb_spec c 0).
Qed.

(** A missing [cooldownSeconds] switches the cooldown off. *)
Lemma checkCooldown_missing (s : TransferFilter.t) (now : Z) (from to : string) :
  cooldownSeconds (TransferFilter.config s) = JUndefined ->
  TransferFilter.checkCooldown s now from to = ok.
Proof.
  intros Hc. unfold TransferFilter.checkCooldown.
  by rewrite Hc, parseInt_undefined.
Qed.

(** The cooldown check does not look at the seen-set. *)
Lemma checkCooldown_markProcessed (h : string) (s : TransferFilter.t) (now : Z)
    (from to : string) :
  TransferFilter.checkCooldown (TransferFilter.markProcessed h s) now from to
  = TransferFilter.checkCooldown s now from to.
Proof. reflexivity. Qed.

(** An address in cooldown on either side of the event fails the check. *)
Lemma checkCooldown_blocked (s : TransferFilter.t) (c T T' : Z)
    (a from to : string) :
  parseInt (cooldownSeconds (TransferFilter.config s)) = Some c -> 0 < c ->
  TransferFilter.lastAlertTime s !! toLowerCase a = Some T -> T <> 0 ->
  same_address from a \/ same_address to a ->
  T' - T < c * 1000 ->
  TransferFilter.checkCooldown s T' from to = failing cooldown.
Proof.
  intros Hc Hpos Hl HT Hsame Hlt.
  rewrite (checkCooldown_active s c) by (done || lia).
  assert (Hin : TransferFilter.in_cooldown s T' (c * 1000) (toLowerCase a)
                = true).
  { rewrite (in_cooldown_stamp s T' (c * 1000) T) by done.
    by apply bool_decide_eq_true_2. }
  unfold same_address in Hsame. simpl.
  destruct Hsame as [->| ->].
  - by rewrite Hin.
  - rewrite Hin. by destruct (TransferFilter.in_cooldown _ _ _ (toLowerCase from)).
Qed.

(** [updateCooldown] keeps the timestamp of an address unless it is more
    than an hour old; the two addresses of the event get the new one. *)
Lemma updateCooldown_keeps (now T2 : Z) (from to a : string)
    (s : TransferFilter.t) :
  TransferFilter.lastAlertTime s !! a = Some T2 -> now - 3600000 <= T2 ->
  TransferFilter.lastAlertTime (TransferFilter.updateCooldown now from to s)
    !! a = Some T2 \/
  TransferFilter.lastAlertTime (TransferFilter.updateCooldown now from to s)
    !! a = Some now.
Proof.
  intros Hl Hrecent.
  destruct (decide (a = toLowerCase from)) as [->|Hf];
    [right; apply updateCooldown_from|].
  destruct (decide (a = toLowerCase to)) as [->|Ht];
    [right; apply updateCooldown_to|].
  left. unfold TransferFilter.updateCooldown. simpl.
  apply map_lookup_filter_Some. split; [|simpl; lia].
  by rewrite !lookup_insert_ne.
Qed.

Lemma run_config (mid : list (Z * Z * TransferEvent)) (s : TransferFilter.t) :
  TransferFilter.config (TransferFilter.run s mid).2 = TransferFilter.config s.
Proof.
  revert s. induction mid as [|[[tc tu] e] mid IH]; intros s; [done|].
  simpl. destruct (TransferFilter.filter s tc tu e) as [r s1] eqn:E.
  specialize (IH s1). destruct (TransferFilter.run s1 mid) as [rs s2].
  simpl in *. rewrite IH.
  destruct (filter_config s tc tu e) as [Hcfg _]. by rewrite E in Hcfg.
Qed.

(** While a window shorter than an hour is open at [T], no run of events
    clocked inside it takes an address out of the cooldown map: a later
    pass can only move its timestamp forward within the window. *)
Lemma stamp_through_history (mid : list (Z * Z * TransferEvent))
    (s : TransferFilter.t) (a : string) (T T' : Z) :
  T' - T < 3600000 ->
  Forall (fun x : Z * Z * TransferEvent => T <= x.1.2 <= T') mid ->
  (exists T2, TransferFilter.lastAlertTime s !! a = Some T2 /\ T <= T2 <= T') ->
  exists T2, TransferFilter.lastAlertTime (TransferFilter.run s mid).2 !! a
             = Some T2 /\ T <= T2 <= T'.
Proof.
  intros Hwin. revert s.
  induction mid as [|[[tc tu] e] mid IH]; intros s Hclk Hs; [done|].
  apply Forall_cons in Hclk as [Htu Hclk]. simpl in Htu.
  simpl. destruct (TransferFilter.filter s tc tu e) as [r s1] eqn:E.
  specialize (IH s1 Hclk). destruct (TransferFilter.run s1 mid) as [rs s2].
  simpl in *. apply IH. clear IH.
  destruct Hs as (T2 & Hl & HT2).
  destruct (decide (e_transactionHash e ∈ TransferFilter.processedTxHashes s))
    as [Hdup|Hnew].
  - rewrite filter_duplicate in E by done. injection E as _ <-. eauto.
  - destruct (filter_fresh s tc tu e Hnew)
      as [[E' _]|[[E' _]|[[E' _]|[E' _]]]]; rewrite E' in E; injection E as _ <-.
    1-3: by exists T2.
    destruct (updateCooldown_keeps tu T2 (e_from e) (e_to e) a
                (TransferFilter.markProcessed (e_transactionHash e) s) Hl)
      as [Hk|Hk]; [lia| |]; eauto.
Qed.

(** Hence, for a cooldown of at most an hour, whatever events come between
    the pass at [T] and an event at [T'] inside the window, that event is
    held back. *)
Lemma cooldown_through_history (mid : list (Z * Z * TransferEvent))
    (s : TransferFilter.t) (a from to : string) (T T' c : Z) :
  parseInt (cooldownSeconds (TransferFilter.config s)) = Some c ->
  0 < c <= 3600 -> 0 < T ->
  TransferFilter.lastAlertTime s !! toLowerCase a = Some T ->
  Forall (fun x : Z * Z * TransferEvent => T <= x.1.2 <= T') mid ->
  same_address from a \/ same_address to a ->
  T <= T' -> T' - T < c * 1000 ->
  TransferFilter.checkCooldown (TransferFilter.run s mid).2 T' from to
  = failing cooldown.
Proof.
  intros Hc Hrange HT Hl Hclk Hsame Hle Hlt.
  destruct (stamp_through_history mid s (toLowerCase a) T T') as (T2 & Hl2 & HT2);
    [lia|done|exists T; split; [done|lia]|].
  apply (checkCooldown_blocked _ c T2 T' a); try done; try lia.
  by rewrite run_config.
Qed.

End FilterState.

(** ** The claims about the filter chain *)

Section FilterClaims.
Context {B : Builtins}.

(** C1 (dedup idempotence).  Let [e1] and [e2] carry the same transaction
    hash, not yet in the seen-set when [e1] arrives.  Then [e1] gets one of
    the four non-duplicate verdicts (matched, below_threshold, not_watched
    or cooldown), whichever it is its hash is in the seen-set right after,
    and [e2], arriving after any events [mid] that did not evict the hash
    (none is the case of immediate succession), gets the verdict
    [duplicate]. *)
Theorem dedup_idempotence (s : TransferFilter.t) (e1 e2 : TransferEvent)
    (mid : list (Z * Z * TransferEvent)) (tc1 tu1 tc2 tu2 : Z) :
  e_transactionHash e2 = e_transactionHash e1 ->
  e_transactionHash e1 ∉ TransferFilter.processedTxHashes s ->
  let first := TransferFilter.filter s tc1 tu1 e1 in
  let s2 := (TransferFilter.run first.2 mid).2 in
  reason first.1 ∈ [Some matched; Some below_threshold; Some not_watched;
                    Some cooldown] /\
  e_transactionHash e1 ∈ TransferFilter.processedTxHashes first.2 /\
  (mid = [] \/ e_transactionHash e1 ∈ TransferFilter.processedTxHashes s2 ->
   (TransferFilter.filter s2 tc2 tu2 e2).1 = duplicate_verdict).
Proof.
  intros Hsame Hnew first s2.
  assert (Hin : e_transactionHash e1 ∈ TransferFilter.processedTxHashes first.2).
  { pose proof (markProcessed_elem (e_transactionHash e1) s) as Hm.
    subst first.
    destruct (filter_fresh s tc1 tu1 e1 Hnew)
      as [[-> _]|[[-> _]|[[-> _]|[-> _]]]]; done. }
  split; [|split; [done|]].
  - subst first.
    destruct (filter_fresh s tc1 tu1 e1 Hnew)
      as [[-> _]|[[-> _]|[[-> _]|[-> _]]]]; simpl; set_solver.
  - intros Hkept.
    assert (Hs2 : e_transactionHash e2 ∈ TransferFilter.processedTxHashes s2).
    { rewrite Hsame. destruct Hkept as [->|Hk]; done. }
    by rewrite filter_duplicate.
Qed.

(** C2 (duplicate short-circuit).  For an event whose hash is in the
    seen-set, [filter] returns [{ passed: false, reason: 'duplicate',
    showInUI: false }] and the filter is left exactly as it was: seen-set
    and cooldown map are unchanged.  No later check runs: the verdict is
    the same whatever the configuration, the clock and the other fields of
    the event. *)
Theorem duplicate_short_circuit (s : TransferFilter.t) (tc tu : Z)
    (e : TransferEvent) :
  e_transactionHash e ∈ TransferFilter.processedTxHashes s ->
  let out := TransferFilter.filter s tc tu e in
  passed out.1 = false /\ reason out.1 = Some duplicate /\
  showInUI out.1 = Some false /\
  out.2 = s /\
  TransferFilter.processedTxHashes out.2 = TransferFilter.processedTxHashes s /\
  TransferFilter.lastAlertTime out.2 = TransferFilter.lastAlertTime s /\
  forall (cfg' : Config) (tc' tu' : Z) (e' : TransferEvent),
    e_transactionHash e' = e_transactionHash e ->
    TransferFilter.filter (TransferFilter.updateConfig cfg' s) tc' tu' e'
    = (out.1, TransferFilter.updateConfig cfg' s).
Proof.
  intros Hin out. subst out. rewrite filter_duplicate by done. simpl.
  repeat split; try done.
  intros cfg' tc' tu' e' Hh. apply filter_duplicate. by rewrite Hh.
Qed.




End FilterClaims.

Section WatchAndThreshold.
Context {B : Builtins}.

Lemma wallet_enabled_iff (w : Wallet) :
  TransferFilter.wallet_enabled w = true <-> TransferFilter.is_enabled w.
Proof.
  destruct w as [a|a [[]|]]; simpl; split; try done; congruence.
Qed.

(** An address is among the normalized watched ones exactly when it is, up
    to case, the address of an enabled entry. *)
Lemma normalized_watched (x : string) (watched : list Wallet) :
  toLowerCase x
    ∈ List.map (fun w => toLowerCase (TransferFilter.wallet_address w))
        (List.filter TransferFilter.wallet_enabled watched)
  <-> exists w, w ∈ watched /\ TransferFilter.is_enabled w /\
                same_address x (TransferFilter.wallet_address w).
Proof.
  rewrite list_elem_of_In, in_map_iff. split.
  - intros (w & Heq & Hw). apply filter_In in Hw as [Hw Hen].
    exists w. rewrite list_elem_of_In. split; [done|].
    split; [by apply wallet_enabled_iff | by unfold same_address].
  - intros (w & Hw & Hen & Hsame). exists w.
    split; [by unfold same_address in Hsame|].
    apply filter_In. rewrite <- list_elem_of_In.
    split; [done | by apply wallet_enabled_iff].
Qed.

(** C4 (watch-list semantics).  The watch-list check passes if and only if
    the configured list is empty (or missing), or [from] or [to] is, up to
    case, the address of an enabled entry (a string, or an object whose
    [enabled] is not [false]); when it does not pass, it fails with reason
    [not_watched]; with an empty list every event passes. *)
Theorem watch_list_semantics (s : TransferFilter.t) (from to : string) :
  let watched := default [] (watchedWallets (TransferFilter.config s)) in
  (passed (TransferFilter.checkWatchedWallets s from to) = true <->
   watched = [] \/
   exists w, w ∈ watched /\ TransferFilter.is_enabled w /\
     (same_address from (TransferFilter.wallet_address w) \/
      same_address to (TransferFilter.wallet_address w))) /\
  (passed (TransferFilter.checkWatchedWallets s from to) = false ->
   TransferFilter.checkWatchedWallets s from to = failing not_watched) /\
  (watched = [] -> TransferFilter.checkWatchedWallets s from to = ok).
Proof.
  intros watched. split; [|split].
  - unfold TransferFilter.checkWatchedWallets. fold watched.
    destruct (decide (watched = [])) as [->|Hne]; [by split; auto|].
    assert (Hlen : (length watched =? 0)%nat = false).
    { destruct watched; [done|reflexivity]. }
    rewrite Hlen.
    pose proof (normalized_watched from watched) as Hf.
    pose proof (normalized_watched to watched) as Ht.
    destruct (bool_decide (toLowerCase from ∈ _)) eqn:Ef;
      destruct (bool_decide (toLowerCase to ∈ _)) eqn:Et; simpl.
    all: try (apply bool_decide_eq_true_1, Hf in Ef;
              destruct Ef as (w & Hw & Hen & Hs)).
    all: try (apply bool_decide_eq_true_1, Ht in Et;
              destruct Et as (w' & Hw' & Hen' & Hs')).
    1-2: split; [intros _|done]; right; exists w; auto.
    1: split; [intros _|done]; right; exists w'; auto.
    apply bool_decide_eq_false_1 in Ef, Et.
    split; [done|]. intros [Hnil|(w & Hw & Hen & [Hs|Hs])].
    + done.
    + exfalso. apply Ef, Hf. eauto.
    + exfalso. apply Et, Ht. eauto.
  - destruct (checkWatchedWallets_cases s from to) as [->| ->]; done.
  - intros Hnil. unfold TransferFilter.checkWatchedWallets. fold watched.
    by rewrite Hnil.
Qed.

(** C5 (threshold monotonicity).  For an amount that parses to a number
    [a], and a configured threshold that parses to a number [t1], the
    threshold check passes exactly when [a] is at least [t1]; and under a
    configuration whose threshold [t2] is at least [t1], the same amount
    passes only if it passed under [t1]: raising the threshold never turns
    a failure into a pass. *)
Theorem threshold_monotonicity (s1 s2 : TransferFilter.t) (amount : JsValue) :
  let a := parseFloat amount in
  let t1 := parseFloat (thresholdAmount (TransferFilter.config s1)) in
  let t2 := parseFloat (thresholdAmount (TransferFilter.config s2)) in
  a <> NaN -> t1 <> NaN -> t2 <> NaN ->
  (passed (TransferFilter.checkThreshold s1 amount) = true <-> at_least a t1) /\
  (passed (TransferFilter.checkThreshold s1 amount) = false ->
   TransferFilter.checkThreshold s1 amount = failing below_threshold) /\
  (at_least t2 t1 ->
   passed (TransferFilter.checkThreshold s2 amount) = true ->
   passed (TransferFilter.checkThreshold s1 amount) = true).
Proof.
  intros a t1 t2 Ha Ht1 Ht2.
  assert (Hiff : forall s, parseFloat (thresholdAmount (TransferFilter.config s))
                           <> NaN ->
            passed (TransferFilter.checkThreshold s amount) = true <->
            at_least a (parseFloat (thresholdAmount (TransferFilter.config s)))).
  { intros s Hs. rewrite <- (js_lt_or_zero a _ Ha Hs).
    unfold TransferFilter.checkThreshold. fold a.
    destruct (js_lt a _); simpl; split; done. }
  split; [by apply Hiff|]. split.
  - destruct (checkThreshold_cases s1 amount) as [->| ->]; done.
  - intros Hle H2. apply Hiff; [done|].
    apply at_least_trans with t2; [|done]. by apply Hiff.
Qed.

(** C10 (the threshold check fails open).  The check always returns.  If
    the amount does not parse ([parseFloat] yields [NaN]) it passes
    whatever the threshold; if the threshold is missing or does not parse,
    it counts as 0, and every amount that parses to a number that is not
    negative passes. *)
Theorem threshold_fails_open (s : TransferFilter.t) (amount : JsValue) :
  (parseFloat amount = NaN -> TransferFilter.checkThreshold s amount = ok) /\
  (thresholdAmount (TransferFilter.config s) = JUndefined ->
   parseFloat (thresholdAmount (TransferFilter.config s)) = NaN) /\
  (parseFloat (thresholdAmount (TransferFilter.config s)) = NaN ->
   or_zero (parseFloat (thresholdAmount (TransferFilter.config s))) = Fin 0 /\
   forall q : Q, parseFloat amount = Fin q -> (0 <= q)%Q ->
     TransferFilter.checkThreshold s amount = ok).
Proof.
  split; [|split].
  - intros Hnan. unfold TransferFilter.checkThreshold. by rewrite Hnan.
  - intros ->. apply parseFloat_undefined.
  - intros Hnan. rewrite Hnan. split; [done|].
    intros q Hq Hpos. unfold TransferFilter.checkThreshold.
    rewrite Hnan, Hq. simpl.
    apply Qle_bool_iff in Hpos. by rewrite Hpos.
Qed.

End WatchAndThreshold.

(** ** Reconnection *)

Section Reconnection.
Import BlockchainListener.

Lemma attemptReconnect_below (s : t) :
  reconnectAttempts s < maxReconnectAttempts s ->
  attemptReconnect s
  = (set_reconnectAttempts (reconnectAttempts s + 1) s,
     [SetTimeout (reconnectDelay s * (reconnectAttempts s + 1))]).
Proof.
  intros Hlt. unfold attemptReconnect.
  by destruct (Z.leb_spec (maxReconnectAttempts s) (reconnectAttempts s)); [lia|].
Qed.

Lemma attemptReconnect_exhausted (s : t) :
  maxReconnectAttempts s <= reconnectAttempts s ->
  attemptReconnect s = (s, [Emit st_failed]).
Proof.
  intros Hle. unfold attemptReconnect.
  by destruct (Z.leb_spec (maxReconnectAttempts s) (reconnectAttempts s)); [|lia].
Qed.

(** The counter after [k] failed [connect()] calls in a row: it climbs by
    one per failure and stops at the maximum; nothing else changes. *)
Lemma failures_counter (k : nat) (s : t) :
  reconnectAttempts s <= maxReconnectAttempts s ->
  let s' := (run s (repeat ConnectFailed k)).1 in
  reconnectAttempts s'
    = Z.min (reconnectAttempts s + Z.of_nat k) (maxReconnectAttempts s) /\
  maxReconnectAttempts s' = maxReconnectAttempts s /\
  reconnectDelay s' = reconnectDelay s.
Proof.
  revert s. induction k as [|k IH]; intros s Hle; simpl.
  - split; [lia|done].
  - destruct (attemptReconnect s) as [s1 acts] eqn:E.
    specialize (IH s1).
    destruct (run s1 (repeat ConnectFailed k)) as [s2 more]. simpl in *.
    destruct (Z.le_gt_cases (maxReconnectAttempts s) (reconnectAttempts s))
      as [Hmax|Hlt].
    + rewrite attemptReconnect_exhausted in E by done.
      injection E as <- <-. destruct (IH Hle) as (-> & -> & ->).
      split; [lia|done].
    + rewrite attemptReconnect_below in E by done.
      injection E as <- <-. simpl in IH.
      destruct IH as (-> & -> & ->); [lia|]. split; [lia|done].
Qed.

End Reconnection.

(** C6, as the code has it (reconnection backoff and termination).  Take a
    listener whose counter is within its maximum and let [k] calls of
    [connect()] fail in a row; look at the next failure, the [k+1]-th.
    While the counter is below the maximum it is incremented and the next
    [connect()] is scheduled after [reconnectDelay * counter] (linear in
    the counter, which a websocket [open] resets to 0).  The first failure
    that finds the counter at the maximum emits the terminal status
    [failed] and schedules nothing, and so does every later one.  From a
    counter of 0 and the maximum of 10 this is the 11th failure in a row:
    the first ten each schedule one of the ten reconnect attempts.  After a
    dropped connection, whose [close] already takes the first increment, it
    is the 10th. *)
Theorem reconnect_backoff_termination (s : BlockchainListener.t) (k : nat) :
  BlockchainListener.reconnectAttempts s
    <= BlockchainListener.maxReconnectAttempts s ->
  let n := BlockchainListener.reconnectAttempts s + Z.of_nat k in
  let before :=
    (BlockchainListener.run s
       (repeat BlockchainListener.ConnectFailed k)).1 in
  let acts :=
    (BlockchainListener.step before BlockchainListener.ConnectFailed).2 in
  (n < BlockchainListener.maxReconnectAttempts s ->
   acts = [BlockchainListener.Emit BlockchainListener.st_error;
           BlockchainListener.SetTimeout
             (BlockchainListener.reconnectDelay s * (n + 1))]) /\
  (BlockchainListener.maxReconnectAttempts s <= n ->
   acts = [BlockchainListener.Emit BlockchainListener.st_error;
           BlockchainListener.Emit BlockchainListener.st_failed]) /\
  BlockchainListener.reconnectAttempts
    (BlockchainListener.step before BlockchainListener.WsOpen).1 = 0 /\
  (BlockchainListener.step s BlockchainListener.WsClose).2
  = BlockchainListener.Emit BlockchainListener.st_disconnected
      :: (BlockchainListener.attemptReconnect s).2.
Proof.
  intros Hle n before acts.
  destruct (failures_counter k s Hle) as (Hn & Hm & Hd). fold before in Hn, Hm, Hd.
  split; [|split; [|split]].
  - intros Hlt. subst acts. simpl.
    rewrite attemptReconnect_below by lia. simpl.
    rewrite Hd, Hn. do 3 f_equal. lia.
  - intros Hge. subst acts. simpl.
    by rewrite attemptReconnect_exhausted by lia.
  - reflexivity.
  - simpl. unfold BlockchainListener.attemptReconnect. simpl.
    by destruct (_ <=? _).
Qed.

(** C6, as stated, fails when counted from a fresh listener: after ten
    failed [connect()] calls in a row no [failed] status has been emitted,
    the tenth has scheduled one more reconnect (after 50 seconds), and it
    takes an eleventh failure to reach [failed]. *)
Lemma ten_failures_not_terminal :
  let out :=
    BlockchainListener.run BlockchainListener.new
      (repeat BlockchainListener.ConnectFailed 10) in
  existsb BlockchainListener.emits_failed out.2 = false /\
  BlockchainListener.schedules (List.last out.2 []) = [50000] /\
  (BlockchainListener.step out.1 BlockchainListener.ConnectFailed).2
  = [BlockchainListener.Emit BlockchainListener.st_error;
     BlockchainListener.Emit BlockchainListener.st_failed].
Proof. vm_compute. repeat split. Qed.

(** After a drop the same ten failures do end in [failed]: the [close]
    handler has already taken the first of the ten increments. *)
Example ten_failures_after_drop :
  let out :=
    BlockchainListener.run BlockchainListener.new
      (BlockchainListener.WsOpen :: BlockchainListener.WsClose
         :: repeat BlockchainListener.ConnectFailed 10) in
  List.map BlockchainListener.schedules out.2
  = [[]; [5000]; [10000]; [15000]; [20000]; [25000]; [30000]; [35000];
     [40000]; [45000]; [50000]; []] /\
  List.map BlockchainListener.emits_failed out.2
  = [false; false; false; false; false; false; false; false; false; false;
     false; true].
Proof. vm_compute. split; reflexivity. Qed.

(** ** Configuration reload *)

Section ConfigReload.
Import ConfigWatcher.
Variable JSON_parse : string -> option Json.

(** [validateConfig] throws exactly on [null] and on a document without a
    truthy [tokenContract]. *)
Lemma validateConfig_throws (c : Json) :
  validateConfig c = None <->
  c = JNull \/ json_truthy (default None (get c "tokenContract")) = false.
Proof.
  unfold validateConfig, required. simpl.
  destruct c; simpl; try (split; [auto|done]).
  destruct (json_truthy (lookup_field "tokenContract" fields)); simpl.
  - split; [done|]. by intros [|].
  - split; auto.
Qed.

Lemma assign_field_lookup (key : string) (v : Json)
    (fields : list (string * Json)) :
  lookup_field key (assign_field key v fields) = Some v.
Proof.
  induction fields as [|[k old] rest IH]; simpl.
  - by rewrite String.eqb_refl.
  - destruct (String.eqb k key) eqn:E; simpl; by rewrite E.
Qed.

Lemma assign_field_other (key key' : string) (v : Json)
    (fields : list (string * Json)) :
  key <> key' ->
  lookup_field key' (assign_field key v fields) = lookup_field key' fields.
Proof.
  intros Hne. induction fields as [|[k old] rest IH]; simpl.
  - destruct (String.eqb_spec key key'); done.
  - destruct (String.eqb_spec k key) as [->|Hk]; simpl.
    + by destruct (String.eqb_spec key key').
    + by rewrite IH.
Qed.

Lemma set_default_other (key key' : string) (d : Json) (c : Json) :
  key <> key' -> get (set_default key d c) key' = get c key'.
Proof.
  intros Hne. destruct c; simpl; try done.
  destruct (lookup_field key fields) as [[]|]; simpl;
    by rewrite assign_field_other.
Qed.

(** A document that is accepted keeps the [tokenContract] it came with. *)
Lemma validateConfig_keeps_token (c c' : Json) :
  validateConfig c = Some c' ->
  get c' "tokenContract" = get c "tokenContract" /\
  json_truthy (default None (get c' "tokenContract")) = true.
Proof.
  intros Hv.
  assert (Ht : json_truthy (default None (get c "tokenContract")) = true).
  { destruct (json_truthy _) eqn:E; [done|].
    assert (validateConfig c = None) by (apply validateConfig_throws; auto).
    congruence. }
  assert (Hget : get c' "tokenContract" = get c "tokenContract").
  { unfold validateConfig, required in Hv.
    destruct c; cbn -[set_default] in Ht, Hv; try done.
    rewrite Ht in Hv. cbn -[set_default] in Hv. injection Hv as <-.
    rewrite !set_default_other by done.
    destruct (lookup_field "thresholdAmount" fields) as [[]|]; simpl;
      by rewrite assign_field_other. }
  by rewrite Hget.
Qed.

Lemma loadConfig_failure (file : File) (w : t) :
  reload_fails JSON_parse file ->
  loadConfig JSON_parse file w
  = (match file with Absent => None | _ => config w end, w).
Proof.
  destruct file as [| |content]; simpl; try done.
  destruct (JSON_parse content) as [parsed|]; [|done].
  by intros ->.
Qed.

End ConfigReload.

(** C7, as the code has it (a failed reload changes nothing).  When the
    reload fails -- the file is missing or cannot be read, its content does
    not parse, or the document has no (truthy) [tokenContract] --
    [loadConfig] leaves the stored configuration exactly as it was.  It
    returns [null] when the file is missing and the stored configuration in
    the other cases; and what [handleConfigChange] then hands to the filter,
    the listener and the notifier, if anything, is that stored
    configuration. *)
Theorem config_reload_keeps_previous
    (JSON_parse : string -> option ConfigWatcher.Json)
    (file : ConfigWatcher.File) (w : ConfigWatcher.t) :
  ConfigWatcher.reload_fails JSON_parse file ->
  let out := ConfigWatcher.loadConfig JSON_parse file w in
  let change := ConfigWatcher.handleConfigChange JSON_parse file w in
  out.2 = w /\
  (file = ConfigWatcher.Absent -> out.1 = None) /\
  (file <> ConfigWatcher.Absent -> out.1 = ConfigWatcher.config w) /\
  change.2 = w /\
  (forall ch, change.1 = Some ch ->
     ConfigWatcher.config w = Some (ConfigWatcher.newConfig ch)).
Proof.
  intros Hfail out change. subst out change.
  unfold ConfigWatcher.handleConfigChange.
  rewrite (loadConfig_failure JSON_parse file w Hfail). simpl.
  split; [done|]. split; [by intros ->|]. split; [by destruct file|].
  destruct file; simpl; try done;
    destruct (ConfigWatcher.config w) as [c|]; simpl; try done;
    split; try done; by intros ch [= <-].
Qed.

(** C7, as stated, fails for a missing file: with a valid configuration
    loaded, [loadConfig] on a missing file returns [null], not that
    configuration (which stays stored). *)
Lemma missing_file_returns_null :
  let w := Samples.loaded in
  let out :=
    ConfigWatcher.loadConfig Samples.JSON_parse ConfigWatcher.Absent w in
  ConfigWatcher.reload_fails Samples.JSON_parse ConfigWatcher.Absent /\
  ConfigWatcher.config w <> None /\
  out.1 = None /\
  out.1 <> ConfigWatcher.config w /\
  out.2 = w.
Proof. vm_compute. repeat split; congruence. Qed.

(** ** Notifier retries *)

Section NotifierRetries.
Import TelegramNotifier.
Variable sendMessage : nat -> Outcome.
Variable now : Z.

Lemma sends_app (l1 l2 : list Action) :
  sends (l1 ++ l2)%list = (sends l1 ++ sends l2)%list.
Proof. apply omap_app. Qed.

Lemma sends_pause (attempt retries : nat) (d : Z) :
  sends (if (attempt <? retries)%nat then [Sleep d] else []) = [].
Proof. by destruct (_ <? _)%nat. Qed.

(** The loop calls the bot once per attempt at most, in order. *)
Lemma sendAlert_loop_sends (attempts : list nat) (retries : nat)
    (event : TransferEvent) (self : t) :
  sends (sendAlert_loop sendMessage now attempts retries event self).2
    `prefix_of` attempts.
Proof.
  induction attempts as [|a rest IH]; simpl; [done|].
  destruct (sendMessage a) as [|err]; simpl.
  - by apply prefix_cons, prefix_nil.
  - destruct (sendAlert_loop sendMessage now rest retries event self)
      as [[r s'] acts]. simpl in *.
    change (SendMessage a :: ?l) with ([SendMessage a] ++ l)%list.
    rewrite !sends_app, sends_pause. simpl. by apply prefix_cons.
Qed.

(** When every call throws, the loop runs through all its attempts, pausing
    after each but the last, gives up with [max_retries_exceeded] and
    leaves the notifier as it was. *)
Lemma sendAlert_loop_exhausted (attempts : list nat) (retries : nat)
    (event : TransferEvent) (self : t) (err : nat -> Error) :
  (forall n, sendMessage n = Threw (err n)) ->
  sendAlert_loop sendMessage now attempts retries event self
  = ({| success := false; reason := Some "max_retries_exceeded" |}, self,
     flat_map (fun n => TelegramNotifier.failed_attempt retries n (err n)) attempts).
Proof.
  intros Hall. induction attempts as [|a rest IH]; simpl; [done|].
  rewrite Hall, IH. unfold failed_attempt. simpl. done.
Qed.

End NotifierRetries.

Lemma pauses_app (l1 l2 : list TelegramNotifier.Action) :
  TelegramNotifier.pauses (l1 ++ l2)%list
  = (TelegramNotifier.pauses l1 ++ TelegramNotifier.pauses l2)%list.
Proof. apply omap_app. Qed.

(** The calls and the pauses of a run in which the attempts [start],
    [start + 1], ... up to [retries] all fail. *)
Lemma exhausted_trace (retries : nat) (err : nat -> TelegramNotifier.Error)
    (k start : nat) :
  (start + k = S retries)%nat ->
  TelegramNotifier.sends
    (flat_map (fun n => TelegramNotifier.failed_attempt retries n (err n))
       (seq start k))
  = seq start k /\
  TelegramNotifier.pauses
    (flat_map (fun n => TelegramNotifier.failed_attempt retries n (err n))
       (seq start k))
  = List.map
      (fun n => TelegramNotifier.delay n
                  (TelegramNotifier.isNetworkError
                     (TelegramNotifier.errorMsg (err n))))
      (seq start (k - 1)).
Proof.
  revert start. induction k as [|k IH]; intros start Hk; [done|].
  cbn [flat_map seq]. rewrite sends_app, pauses_app.
  destruct (IH (S start) ltac:(lia)) as [-> ->].
  unfold TelegramNotifier.failed_attempt.
  destruct (Nat.ltb_spec start retries) as [Hlt|Hge]; simpl.
  - split; [done|]. destruct k as [|k]; [lia|]. simpl. by rewrite Nat.sub_0_r.
  - split; [done|]. assert (k = 0)%nat as -> by lia. done.
Qed.

Lemma delay_network_twice (attempt : nat) :
  (1 <= attempt)%nat ->
  TelegramNotifier.delay attempt true
  = 2 * TelegramNotifier.delay attempt false.
Proof.
  intros Hge. unfold TelegramNotifier.delay.
  replace (Z.of_nat attempt) with (Z.succ (Z.of_nat attempt - 1)) at 1 by lia.
  rewrite Z.pow_succ_r by lia. lia.
Qed.

Lemma delay_increasing (a b : nat) (network : bool) :
  (1 <= a < b)%nat ->
  TelegramNotifier.delay a network < TelegramNotifier.delay b network.
Proof.
  intros Hab. unfold TelegramNotifier.delay.
  destruct network; apply Z.mul_lt_mono_pos_r; try lia;
    apply Z.pow_lt_mono_r; lia.
Qed.

(** C8, as the code has it (notifier retry policy).  [sendAlert] calls the
    bot at most [retries] times (5 by default), at attempts 1, 2, ... in
    order.  The
    pause after a failed attempt strictly increases with the attempt number
    for either class of error, never decreases from one attempt to a later
    one across classes, and for a network-class error is exactly twice the
    pause for another error at the same attempt.  When every attempt fails,
    [sendAlert] makes all its attempts with a pause between consecutive
    ones, returns [{ success: false, reason: 'max_retries_exceeded' }]
    instead of throwing, and keeps nothing to retry later: the notifier is
    as it was before the call. *)
Theorem notifier_retry_policy (sendMessage : nat -> TelegramNotifier.Outcome)
    (now : Z) (self : TelegramNotifier.t) (event : TransferEvent)
    (retries : nat) (err : nat -> TelegramNotifier.Error) :
  let out := TelegramNotifier.sendAlert sendMessage now self event retries in
  TelegramNotifier.sends out.2 `prefix_of` seq 1 retries /\
  (length (TelegramNotifier.sends out.2) <= retries)%nat /\
  (forall (a b : nat) (network : bool), (1 <= a < b)%nat ->
     TelegramNotifier.delay a network < TelegramNotifier.delay b network) /\
  (forall (a b : nat) (n1 n2 : bool), (1 <= a < b)%nat ->
     TelegramNotifier.delay a n1 <= TelegramNotifier.delay b n2) /\
  (forall a : nat, (1 <= a)%nat ->
     TelegramNotifier.delay a true = 2 * TelegramNotifier.delay a false) /\
  (TelegramNotifier.isEnabled self = true -> TelegramNotifier.bot self = true ->
   (forall n, sendMessage n = TelegramNotifier.Threw (err n)) ->
   out = ({| TelegramNotifier.success := false;
             TelegramNotifier.reason := Some "max_retries_exceeded" |},
          self,
          flat_map (fun n => TelegramNotifier.failed_attempt retries n (err n)) (seq 1 retries))
   /\ TelegramNotifier.sends out.2 = seq 1 retries
   /\ TelegramNotifier.pauses out.2
      = List.map
          (fun n => TelegramNotifier.delay n
                      (TelegramNotifier.isNetworkError
                         (TelegramNotifier.errorMsg (err n))))
          (seq 1 (retries - 1))).
Proof.
  intros out.
  assert (Hpre : TelegramNotifier.sends out.2 `prefix_of` seq 1 retries).
  { subst out. unfold TelegramNotifier.sendAlert.
    destruct (_ || _); [apply prefix_nil | apply sendAlert_loop_sends]. }
  split; [done|]. split.
  { apply prefix_length in Hpre. by rewrite length_seq in Hpre. }
  split; [intros; by apply delay_increasing|]. split.
  { intros a b n1 n2 Hab.
    pose proof (delay_increasing a b false Hab).
    pose proof (delay_increasing a b true Hab).
    pose proof (delay_network_twice a ltac:(lia)).
    pose proof (delay_network_twice b ltac:(lia)).
    assert (0 < TelegramNotifier.delay a false).
    { unfold TelegramNotifier.delay.
      apply Z.mul_pos_pos; [apply Z.pow_pos_nonneg|]; lia. }
    assert (TelegramNotifier.delay a true <= TelegramNotifier.delay b false).
    { unfold TelegramNotifier.delay.
      apply Z.mul_le_mono_nonneg_r; [lia|]. apply Z.pow_le_mono_r; lia. }
    destruct n1, n2; lia. }
  split; [intros; by apply delay_network_twice|].
  intros Hen Hbot Hall.
  assert (Hout : out = ({| TelegramNotifier.success := false;
             TelegramNotifier.reason := Some "max_retries_exceeded" |},
          self,
          flat_map (fun n => TelegramNotifier.failed_attempt retries n (err n)) (seq 1 retries))).
  { subst out. unfold TelegramNotifier.sendAlert. rewrite Hen, Hbot. simpl.
    by apply sendAlert_loop_exhausted. }
  split; [done|]. rewrite Hout. simpl.
  destruct retries as [|r]; [done|].
  apply (exhausted_trace (S r) err (S r) 1%nat). lia.
Qed.

(** ** Dispatch *)

Section Dispatch.
Context {B : Builtins}.

(** The five verdicts [filter] can return. *)
Lemma filter_verdicts (s : TransferFilter.t) (tc tu : Z) (e : TransferEvent) :
  let v := (TransferFilter.filter s tc tu e).1 in
  v = duplicate_verdict \/
  v = with_showInUI true (failing below_threshold) \/
  v = with_showInUI true (failing not_watched) \/
  v = with_showInUI true (failing cooldown) \/
  v = {| passed := true; showInUI := Some true; reason := Some matched |}.
Proof.
  destruct (decide (e_transactionHash e ∈ TransferFilter.processedTxHashes s))
    as [Hdup|Hnew]; simpl.
  - rewrite filter_duplicate by done. auto.
  - destruct (filter_fresh s tc tu e Hnew)
      as [[-> _]|[[-> _]|[[-> _]|[-> _]]]]; auto 6.
Qed.

Lemma elem_of_three {A : Type} (x a b c : A) :
  x ∈ [a; b; c] -> x = a \/ x = b \/ x = c.
Proof.
  intros H. apply elem_of_cons in H as [H|H]; [auto|].
  apply elem_of_cons in H as [H|H]; [auto|].
  apply list_elem_of_singleton in H. auto.
Qed.

(** A verdict that did not pass leaves every sink as it was. *)
Lemma onTransfer_dropped (app : ChainWatch.t) (env : ChainWatch.Env)
    (ev : TransferEvent) :
  passed (TransferFilter.filter (ChainWatch.filter app) (ChainWatch.tCheck env)
            (ChainWatch.tUpdate env) ev).1 = false ->
  ChainWatch.sinks (ChainWatch.onTransfer app env ev) = ChainWatch.sinks app.
Proof.
  intros Hp. unfold ChainWatch.onTransfer.
  destruct (TransferFilter.filter _ _ _ ev) as [r f]. simpl in Hp.
  rewrite Hp. simpl. by case_bool_decide.
Qed.

End Dispatch.

(** C9 (only passed events reach the sinks).  The handler hands an event to
    the sinks -- the in-memory list, the stored history, the live-feed
    broadcast and Telegram -- only when the verdict has [passed = true].
    With [passed = false] all of them are left as they were; this is so in
    particular for the verdicts [below_threshold], [not_watched] and
    [cooldown], although they carry [showInUI = true].  With
    [passed = true] the event is appended to the in-memory list, put at the
    head of the stored history, broadcast to the live feed and handed to
    [sendAlert]. *)
Theorem dispatch_only_passed {B : Builtins} (app : ChainWatch.t)
    (env : ChainWatch.Env) (ev : TransferEvent) :
  let verdict :=
    (TransferFilter.filter (ChainWatch.filter app) (ChainWatch.tCheck env)
       (ChainWatch.tUpdate env) ev).1 in
  let app' := ChainWatch.onTransfer app env ev in
  (passed verdict = false -> ChainWatch.sinks app' = ChainWatch.sinks app) /\
  (reason verdict ∈ [Some below_threshold; Some not_watched; Some cooldown] ->
   passed verdict = false /\ showInUI verdict = Some true /\
   ChainWatch.sinks app' = ChainWatch.sinks app) /\
  (ChainWatch.sinks app' <> ChainWatch.sinks app -> passed verdict = true) /\
  (passed verdict = true ->
   exists m : ChainWatch.EventWithMeta,
     ChainWatch.event m = ev /\ ChainWatch.filterResult m = verdict /\
     ChainWatch.recentEvents app'
       = ChainWatch.pushRecent m (ChainWatch.recentEvents app) /\
     ChainWatch.storage app'
       = ChainWatch.addEvent (ChainWatch.tStored env) m
           (ChainWatch.storage app) /\
     ChainWatch.telegram app'
       = (ChainWatch.telegram app ++
          (TelegramNotifier.sendAlert (ChainWatch.sendMessage env)
             (ChainWatch.tAlert env) (ChainWatch.notifier app) ev 5).2)%list /\
     forall sent, ChainWatch.wsServer app = Some sent ->
       exists sent',
         ChainWatch.wsServer app' = Some sent' /\
         ChainWatch.BTransfer m verdict (ChainWatch.tBroadcast env) ∈ sent').
Proof.
  intros verdict app'.
  pose proof (onTransfer_dropped app env ev) as Hdrop.
  fold verdict app' in Hdrop.
  pose proof (filter_verdicts (ChainWatch.filter app) (ChainWatch.tCheck env)
                (ChainWatch.tUpdate env) ev) as Hv.
  simpl in Hv. fold verdict in Hv.
  split; [done|]. split; [|split].
  - intros Hr.
    assert (Hp : passed verdict = false /\ showInUI verdict = Some true).
    { apply elem_of_three in Hr.
      destruct Hv as [Hv|[Hv|[Hv|[Hv|Hv]]]]; rewrite Hv in Hr |- *;
        simpl in *; intuition congruence. }
    destruct Hp. auto.
  - intros Hne. destruct (passed verdict) eqn:Hp; [done|].
    by rewrite Hdrop in Hne.
  - intros Hp.
    assert (Hr : bool_decide (reason verdict = Some duplicate) = false).
    { apply bool_decide_eq_false_2.
      destruct Hv as [Hv|[Hv|[Hv|[Hv|Hv]]]]; rewrite Hv in Hp |- *;
        done. }
    subst app'. unfold ChainWatch.onTransfer. subst verdict.
    destruct (TransferFilter.filter _ _ _ ev) as [r f]. simpl in *.
    rewrite Hr, Hp. simpl.
    destruct (TelegramNotifier.sendAlert _ _ _ ev 5) as [[ar n] acts].
    eexists {| ChainWatch.event := ev; ChainWatch.filterResult := r;
               ChainWatch.meta := ChainWatch.enrich env ev;
               ChainWatch.processedAt := ChainWatch.tProcessed env |}.
    do 5 (split; [done|]).
    intros sent Hs. rewrite Hs. simpl.
    destruct (TelegramNotifier.success ar); simpl; eexists;
      (split; [reflexivity|]).
    + apply elem_of_app. left. apply elem_of_app. right.
      by apply list_elem_of_singleton.
    + apply elem_of_app. right. by apply list_elem_of_singleton.
Qed.

(** * The claims on the sample data

    Each theorem that has hypotheses is applied once to the scenario of the
    specification, where the hypotheses are settled by evaluation. *)

Section OnSamples.
Import Samples.

(** The scenario, run as a whole: matched, duplicate, cooldown (10 seconds
    later), matched (61 seconds later). *)
Example scenario_verdicts :
  List.map reason
    (TransferFilter.run (B := Engine.builtins) s0
       [(t0, t0, event1); (t0, t0, event2);
        (t0 + 10000, t0 + 10000, event3);
        (t0 + 61000, t0 + 61000, event4)]).1
  = [Some matched; Some duplicate; Some cooldown; Some matched].
Proof. vm_compute. reflexivity. Qed.

(** The four verdicts a first event can get, each followed by [duplicate]
    when the same hash comes again. *)
Example first_verdicts :
  let after1 :=
    (TransferFilter.filter (B := Engine.builtins) s0 t0 t0 event1).2 in
  List.map
    (fun '(s, e) =>
       List.map reason
         (TransferFilter.run (B := Engine.builtins) s
            [(t0 + 1, t0 + 1, e); (t0 + 2, t0 + 2, e)]).1)
    [(s0, event1); (TransferFilter.new cfg10, event1); (s0, stranger);
     (after1, event3)]
  = [[Some matched; Some duplicate]; [Some below_threshold; Some duplicate];
     [Some not_watched; Some duplicate]; [Some cooldown; Some duplicate]].
Proof. vm_compute. reflexivity. Qed.

Lemma dedup_idempotence_witness :
  let first := TransferFilter.filter (B := Engine.builtins) s0 t0 t0 event1 in
  reason first.1 = Some matched /\
  (TransferFilter.filter (B := Engine.builtins) first.2 (t0 + 1) (t0 + 1)
     event2).1 = duplicate_verdict.
Proof.
  destruct (dedup_idempotence (B := Engine.builtins) s0 event1 event2 []
              t0 t0 (t0 + 1) (t0 + 1) eq_refl (not_elem_of_nil _))
    as (_ & _ & Hdup).
  split; [vm_compute; reflexivity|]. apply Hdup. by left.
Defined.

Lemma duplicate_short_circuit_witness :
  let s1 := (TransferFilter.filter (B := Engine.builtins) s0 t0 t0 event1).2 in
  TransferFilter.filter (B := Engine.builtins) s1 (t0 + 1) (t0 + 1) event2
  = (duplicate_verdict, s1).
Proof.
  intros s1.
  assert (Hin : e_transactionHash event2 ∈ TransferFilter.processedTxHashes s1).
  { apply (bool_decide_unpack _). by vm_compute. }
  destruct (duplicate_short_circuit (B := Engine.builtins) s1 (t0 + 1) (t0 + 1)
              event2 Hin) as (Hp & Hr & Hu & Hs & _).
  rewrite <- Hs at 2.
  destruct (TransferFilter.filter s1 (t0 + 1) (t0 + 1) event2) as [[p u r] s2].
  simpl in *. by subst.
Defined.



Lemma threshold_monotonicity_witness :
  passed (TransferFilter.checkThreshold (B := Engine.builtins) s0
            (JString "5")) = true /\
  passed (TransferFilter.checkThreshold (B := Engine.builtins)
            (TransferFilter.new cfg10) (JString "5")) = false /\
  (passed (TransferFilter.checkThreshold (B := Engine.builtins)
             (TransferFilter.new cfg10) (JString "12.5")) = true ->
   passed (TransferFilter.checkThreshold (B := Engine.builtins) s0
             (JString "12.5")) = true).
Proof.
  destruct (threshold_monotonicity (B := Engine.builtins) s0
              (TransferFilter.new cfg10) (JString "12.5"))
    as (_ & _ & Hmono); try (vm_compute; discriminate).
  split; [vm_compute; reflexivity|]. split; [vm_compute; reflexivity|].
  apply Hmono. vm_compute. discriminate.
Defined.

Lemma reconnect_backoff_termination_witness :
  (BlockchainListener.step
     (BlockchainListener.run BlockchainListener.new
        (repeat BlockchainListener.ConnectFailed 9)).1
     BlockchainListener.ConnectFailed).2
  = [BlockchainListener.Emit BlockchainListener.st_error;
     BlockchainListener.SetTimeout 50000] /\
  (BlockchainListener.step
     (BlockchainListener.run BlockchainListener.new
        (repeat BlockchainListener.ConnectFailed 10)).1
     BlockchainListener.ConnectFailed).2
  = [BlockchainListener.Emit BlockchainListener.st_error;
     BlockchainListener.Emit BlockchainListener.st_failed].
Proof.
  assert (Hle : BlockchainListener.reconnectAttempts BlockchainListener.new
                <= BlockchainListener.maxReconnectAttempts
                     BlockchainListener.new) by (simpl; lia).
  split.
  - destruct (reconnect_backoff_termination BlockchainListener.new 9 Hle)
      as (Hnext & _). apply Hnext. simpl. lia.
  - destruct (reconnect_backoff_termination BlockchainListener.new 10 Hle)
      as (_ & Hstop & _). apply Hstop. simpl. lia.
Defined.

Lemma config_reload_keeps_previous_witness :
  ConfigWatcher.loadConfig JSON_parse (ConfigWatcher.Readable "no-token.json")
    loaded
  = (ConfigWatcher.config loaded, loaded) /\
  ConfigWatcher.loadConfig JSON_parse (ConfigWatcher.Readable "not json")
    loaded
  = (ConfigWatcher.config loaded, loaded).
Proof.
  split.
  - destruct (config_reload_keeps_previous JSON_parse
                (ConfigWatcher.Readable "no-token.json") loaded)
      as (Hw & _ & Hret & _); [vm_compute; reflexivity|].
    rewrite <- Hw at 3. rewrite <- Hret by done. by destruct (ConfigWatcher.loadConfig _ _ _).
  - destruct (config_reload_keeps_previous JSON_parse
                (ConfigWatcher.Readable "not json") loaded)
      as (Hw & _ & Hret & _); [vm_compute; exact I|].
    rewrite <- Hw at 3. rewrite <- Hret by done. by destruct (ConfigWatcher.loadConfig _ _ _).
Defined.

(** The watch list on the sample configuration: case does not matter, a
    disabled entry does not count, a missing list lets everything pass. *)
Example watch_list_samples :
  let watch (ws : option (list Wallet)) :=
    TransferFilter.new
      {| tokenContract := "0xC0"; thresholdAmount := JUndefined;
         watchedWallets := ws; cooldownSeconds := JUndefined |} in
  List.map
    (fun ws => passed (TransferFilter.checkWatchedWallets (watch ws)
                         "0xcc" "0xAa"))
    [None; Some []; Some [WString "0xaA"]; Some [WObject "0xAA" None];
     Some [WObject "0xAA" (Some true)]; Some [WObject "0xAA" (Some false)];
     Some [WString "0xBB"]]
  = [true; true; true; true; true; false; false].
Proof. vm_compute. reflexivity. Qed.

(** An amount that does not parse passes a threshold of 10, and a missing
    threshold lets 0 pass. *)
Example threshold_samples :
  TransferFilter.checkThreshold (B := Engine.builtins)
    (TransferFilter.new cfg10) (JString "n/a") = ok /\
  TransferFilter.checkThreshold (B := Engine.builtins)
    (TransferFilter.new cfg10) JUndefined = ok /\
  TransferFilter.checkThreshold (B := Engine.builtins)
    (TransferFilter.new
       {| tokenContract := "0xC0"; thresholdAmount := JUndefined;
          watchedWallets := None; cooldownSeconds := JUndefined |})
    (JString "0") = ok.
Proof. vm_compute. repeat split. Qed.

(** The pauses of a run of five failures: a network error at the first
    attempt, other errors after it. *)
Example retry_samples :
  let out :=
    TelegramNotifier.sendAlert flaky t0 notifier0 event1 5 in
  TelegramNotifier.sends out.2 = [1; 2; 3; 4; 5]%nat /\
  TelegramNotifier.pauses out.2 = [2000; 2000; 4000; 8000] /\
  TelegramNotifier.reason out.1.1 = Some "max_retries_exceeded".
Proof. vm_compute. repeat split. Qed.

(** C8, as stated, fails across the two classes of errors: after a
    network error at the first attempt and another error at the second,
    [sendAlert] waits two seconds both times, so the wait does not
    strictly increase with the attempt number. *)
Lemma retry_delay_repeats :
  let out := TelegramNotifier.sendAlert flaky t0 notifier0 event1 5 in
  TelegramNotifier.pauses out.2 !! 0%nat = Some 2000 /\
  TelegramNotifier.pauses out.2 !! 1%nat = Some 2000 /\
  ~ (TelegramNotifier.delay 1 true < TelegramNotifier.delay 2 false).
Proof. vm_compute. repeat split. intros H. discriminate H. Qed.

(** Only the matched events of the scenario reach the sinks. *)
Example dispatch_samples :
  let app1 := ChainWatch.onTransfer (B := Engine.builtins) app0 env0 event1 in
  let app2 := ChainWatch.onTransfer (B := Engine.builtins) app1 env0 event2 in
  let app3 := ChainWatch.onTransfer (B := Engine.builtins) app2 env0 event3 in
  length (ChainWatch.recentEvents app1) = 1%nat /\
  length (ChainWatch.storage app1) = 1%nat /\
  ChainWatch.sinks app2 = ChainWatch.sinks app1 /\
  ChainWatch.sinks app3 = ChainWatch.sinks app1.
Proof. vm_compute. repeat split. Qed.

End OnSamples.

(** * Further properties *)

(** ** The seen-set and the cooldown map *)

Section FilterCaches.
Context {B : Builtins}.

Lemma set_add_NoDup (h : string) (l : list string) :
  NoDup l -> NoDup (TransferFilter.set_add h l).
Proof.
  intros Hl. unfold TransferFilter.set_add. case_bool_decide; [done|].
  apply NoDup_app. split; [done|]. split; [|apply NoDup_singleton].
  intros x Hx Hx'. apply list_elem_of_singleton in Hx'. by subst.
Qed.

Lemma markProcessed_seen_ok (h : string) (s : TransferFilter.t) :
  1 <= TransferFilter.maxCacheSize s ->
  FilterCache.seen_ok s -> FilterCache.seen_ok (TransferFilter.markProcessed h s).
Proof.
  intros Hmax [Hnd Hlen].
  unfold FilterCache.seen_ok, TransferFilter.markProcessed. simpl.
  destruct (Z.leb_spec (TransferFilter.maxCacheSize s)
              (Z.of_nat (length (TransferFilter.processedTxHashes s)))).
  - split.
    + apply set_add_NoDup.
      eapply sublist_NoDup; [done|apply sublist_drop].
    + pose proof (set_add_length h
                    (drop 1000 (TransferFilter.processedTxHashes s))) as Hl.
      rewrite length_drop in Hl. lia.
  - split; [by apply set_add_NoDup|].
    pose proof (set_add_length h (TransferFilter.processedTxHashes s)). lia.
Qed.

Lemma filter_seen_ok (s : TransferFilter.t) (tc tu : Z) (e : TransferEvent) :
  1 <= TransferFilter.maxCacheSize s ->
  FilterCache.seen_ok s ->
  FilterCache.seen_ok (TransferFilter.filter s tc tu e).2.
Proof.
  intros Hmax Hok.
  destruct (decide (e_transactionHash e ∈ TransferFilter.processedTxHashes s))
    as [Hdup|Hnew].
  - by rewrite filter_duplicate.
  - pose proof (markProcessed_seen_ok (e_transactionHash e) s Hmax Hok) as Hm.
    destruct (filter_fresh s tc tu e Hnew)
      as [[-> _]|[[-> _]|[[-> _]|[-> _]]]]; done.
Qed.

Lemma run_maxCacheSize (events : list (Z * Z * TransferEvent))
    (s : TransferFilter.t) :
  TransferFilter.maxCacheSize (TransferFilter.run s events).2
  = TransferFilter.maxCacheSize s.
Proof.
  revert s. induction events as [|[[tc tu] e] events IH]; intros s; [done|].
  simpl. destruct (TransferFilter.filter s tc tu e) as [r s1] eqn:E.
  specialize (IH s1). destruct (TransferFilter.run s1 events) as [rs s2].
  simpl in *. rewrite IH.
  destruct (filter_config s tc tu e) as [_ Hm]. by rewrite E in Hm.
Qed.

Lemma run_seen_ok (events : list (Z * Z * TransferEvent)) (s : TransferFilter.t) :
  1 <= TransferFilter.maxCacheSize s ->
  FilterCache.seen_ok s -> FilterCache.seen_ok (TransferFilter.run s events).2.
Proof.
  revert s. induction events as [|[[tc tu] e] events IH]; intros s Hmax Hok;
    [done|].
  simpl. destruct (TransferFilter.filter s tc tu e) as [r s1] eqn:E.
  specialize (IH s1). destruct (TransferFilter.run s1 events) as [rs s2].
  simpl in *.
  pose proof (filter_seen_ok s tc tu e Hmax Hok) as Hok1.
  destruct (filter_config s tc tu e) as [_ Hm]. rewrite E in Hok1, Hm.
  simpl in *. apply IH; [by rewrite Hm | done].
Qed.

(** X1.  Whatever events a filter has been fed since it was created, its
    seen-set holds no hash twice and at most 10000 hashes. *)
Theorem seen_set_bounded (cfg : Config)
    (events : list (Z * Z * TransferEvent)) :
  let s := (TransferFilter.run (TransferFilter.new cfg) events).2 in
  NoDup (TransferFilter.processedTxHashes s) /\
  Z.of_nat (length (TransferFilter.processedTxHashes s)) <= 10000.
Proof.
  intros s.
  assert (Hok : FilterCache.seen_ok s).
  { apply run_seen_ok; [simpl; lia|]. split; [apply NoDup_nil_2|simpl; lia]. }
  destruct Hok as [Hnd Hlen]. split; [done|].
  subst s. rewrite run_maxCacheSize in Hlen. simpl in Hlen. lia.
Qed.

(** X2.  At capacity a new hash evicts exactly the 1000 oldest: of the
    hashes seen before, those from position 1000 on are still answered
    [duplicate], the first 1000 are forgotten and would be processed
    again. *)
Theorem eviction_drops_oldest (s : TransferFilter.t) (tc tu : Z)
    (e : TransferEvent) (i : nat) (h : string) :
  NoDup (TransferFilter.processedTxHashes s) ->
  TransferFilter.maxCacheSize s
    <= Z.of_nat (length (TransferFilter.processedTxHashes s)) ->
  e_transactionHash e ∉ TransferFilter.processedTxHashes s ->
  TransferFilter.processedTxHashes s !! i = Some h ->
  let s' := (TransferFilter.filter s tc tu e).2 in
  TransferFilter.processedTxHashes s'
  = (drop 1000 (TransferFilter.processedTxHashes s)
     ++ [e_transactionHash e])%list /\
  ((1000 <= i)%nat -> TransferFilter.isDuplicate s' h = true) /\
  ((i < 1000)%nat -> TransferFilter.isDuplicate s' h = false).
Proof.
  intros Hnd Hcap Hnew Hi s'.
  assert (Hs' : TransferFilter.processedTxHashes s'
                = TransferFilter.processedTxHashes
                    (TransferFilter.markProcessed (e_transactionHash e) s)).
  { subst s'. destruct (filter_fresh s tc tu e Hnew)
      as [[-> _]|[[-> _]|[[-> _]|[-> _]]]]; done. }
  assert (Hlist : TransferFilter.processedTxHashes s'
                  = (drop 1000 (TransferFilter.processedTxHashes s)
                     ++ [e_transactionHash e])%list).
  { rewrite Hs'. unfold TransferFilter.markProcessed. simpl.
    destruct (Z.leb_spec (TransferFilter.maxCacheSize s)
                (Z.of_nat (length (TransferFilter.processedTxHashes s))));
      [|lia].
    unfold TransferFilter.set_add. rewrite bool_decide_eq_false_2; [done|].
    intros Hin. apply Hnew.
    eapply elem_of_sublist; [done|apply sublist_drop]. }
  split; [done|]. unfold TransferFilter.isDuplicate. rewrite Hlist. split.
  - intros Hge. apply bool_decide_eq_true_2, elem_of_app. left.
    apply list_elem_of_lookup. exists (i - 1000)%nat.
    rewrite lookup_drop. by replace (1000 + (i - 1000))%nat with i by lia.
  - intros Hlt. apply bool_decide_eq_false_2. intros Hin.
    apply elem_of_app in Hin as [Hin|Hin].
    + apply list_elem_of_lookup in Hin as [j Hj]. rewrite lookup_drop in Hj.
      pose proof (NoDup_lookup _ _ _ _ Hnd Hi Hj). lia.
    + apply list_elem_of_singleton in Hin. subst h.
      apply Hnew, list_elem_of_lookup. eauto.
Qed.

(** X3.  Only a matched event touches the cooldown map: when the verdict
    has [passed = false], the cooldown timestamps are exactly what they
    were. *)
Theorem unmatched_keeps_cooldowns (s : TransferFilter.t) (tc tu : Z)
    (e : TransferEvent) :
  passed (TransferFilter.filter s tc tu e).1 = false ->
  TransferFilter.lastAlertTime (TransferFilter.filter s tc tu e).2
  = TransferFilter.lastAlertTime s.
Proof.
  intros Hp.
  destruct (decide (e_transactionHash e ∈ TransferFilter.processedTxHashes s))
    as [Hdup|Hnew].
  - by rewrite filter_duplicate.
  - destruct (filter_fresh s tc tu e Hnew)
      as [[E _]|[[E _]|[[E _]|[E _]]]]; rewrite E in Hp |- *; done.
Qed.

(** X4.  After a matched event no timestamp of the cooldown map is more
    than an hour older than the clock of that event: older entries have
    been pruned. *)
Theorem matched_prunes_cooldowns (s : TransferFilter.t) (tc tu : Z)
    (e : TransferEvent) (a : string) (T : Z) :
  passed (TransferFilter.filter s tc tu e).1 = true ->
  TransferFilter.lastAlertTime (TransferFilter.filter s tc tu e).2 !! a
    = Some T ->
  tu - 3600000 <= T.
Proof.
  intros Hp Hl.
  destruct (decide (e_transactionHash e ∈ TransferFilter.processedTxHashes s))
    as [Hdup|Hnew].
  - by rewrite filter_duplicate in Hp.
  - destruct (filter_fresh s tc tu e Hnew)
      as [[E _]|[[E _]|[[E _]|[E _]]]]; rewrite E in Hp, Hl; try done.
    unfold TransferFilter.updateCooldown in Hl. simpl in Hl.
    apply map_lookup_filter_Some in Hl as [_ Hrecent]. simpl in Hrecent. lia.
Qed.

(** X5.  A cooldown that is missing, does not parse or is 0 switches the
    cooldown off: the cooldown check passes for every event, and [filter]
    never answers [cooldown]. *)
Theorem cooldown_off (s : TransferFilter.t) (tc tu : Z) (e : TransferEvent) :
  default 0 (parseInt (cooldownSeconds (TransferFilter.config s))) = 0 ->
  (forall (now : Z) (from to : string),
     TransferFilter.checkCooldown s now from to = ok) /\
  reason (TransferFilter.filter s tc tu e).1 <> Some cooldown.
Proof.
  intros Hoff.
  assert (Hok : forall s', TransferFilter.config s' = TransferFilter.config s ->
                forall now from to,
                  TransferFilter.checkCooldown s' now from to = ok).
  { intros s' Hcfg now from to. unfold TransferFilter.checkCooldown.
    by rewrite Hcfg, Hoff. }
  split; [by apply Hok|].
  destruct (decide (e_transactionHash e ∈ TransferFilter.processedTxHashes s))
    as [Hdup|Hnew].
  - by rewrite filter_duplicate.
  - destruct (filter_fresh s tc tu e Hnew)
      as [[-> _]|[[-> _]|[[E (_ & _ & Hc)]|[-> _]]]]; try done.
    rewrite checkCooldown_markProcessed, Hok in Hc; done.
Qed.

(** X6.  [clearCache] forgets everything: the next event, whatever it is,
    is neither a duplicate nor held back by a cooldown, and the
    configuration is kept. *)
Theorem clearCache_forgets (s : TransferFilter.t) (tc tu : Z)
    (e : TransferEvent) :
  let s0 := FilterCache.clearCache s in
  TransferFilter.config s0 = TransferFilter.config s /\
  reason (TransferFilter.filter s0 tc tu e).1
    ∈ [Some matched; Some below_threshold; Some not_watched].
Proof.
  intros s0. split; [done|].
  assert (Hnew : e_transactionHash e ∉ TransferFilter.processedTxHashes s0)
    by apply not_elem_of_nil.
  destruct (filter_fresh s0 tc tu e Hnew)
    as [[-> _]|[[-> _]|[[E (_ & _ & Hc)]|[-> _]]]]; simpl; try set_solver.
  exfalso. rewrite checkCooldown_markProcessed in Hc.
  unfold TransferFilter.checkCooldown in Hc.
  destruct (_ =? _); [done|]. simpl in Hc.
  unfold TransferFilter.in_cooldown in Hc. simpl in Hc.
  by rewrite !lookup_empty in Hc.
Qed.

(** [Math.ceil] of a positive number of milliseconds, in seconds. *)
Lemma remainingSeconds_ceil (now lastAlert ms : Z) :
  now - lastAlert < ms ->
  let r := FilterCache.remainingSeconds now lastAlert ms in
  1 <= r /\ ms <= (now + r * 1000) - lastAlert < ms + 1000.
Proof.
  intros Hlt r. subst r. unfold FilterCache.remainingSeconds.
  set (x := ms - (now - lastAlert)).
  assert (Hx : 0 < x) by (subst x; lia).
  pose proof (Z.div_mod (- x) 1000 ltac:(lia)) as Hdm.
  pose proof (Z.mod_pos_bound (- x) 1000 ltac:(lia)) as Hmod.
  replace (- (ms - (now - lastAlert))) with (- x) by (subst x; lia).
  subst x. lia.
Qed.

(** An address is in cooldown exactly when it has a truthy timestamp less
    than the cooldown old. *)
Lemma in_cooldown_true (s : TransferFilter.t) (now ms : Z) (a : string) :
  TransferFilter.in_cooldown s now ms a = true <->
  exists T, TransferFilter.lastAlertTime s !! a = Some T /\ T <> 0 /\
            now - T < ms.
Proof.
  unfold TransferFilter.in_cooldown.
  destruct (TransferFilter.lastAlertTime s !! a) as [T|].
  - rewrite andb_true_iff, negb_true_iff, Z.eqb_neq, Z.ltb_lt. split.
    + intros [? ?]. by exists T.
    + by intros (? & [= <-] & ? & ?).
  - split; [done|]. by intros (? & ? & _).
Qed.

(** The loop fails exactly when it announces a number, and the number is
    that of an address in cooldown. *)
Lemma remaining_loop_spec (s : TransferFilter.t) (now ms : Z)
    (addresses : list string) :
  (TransferFilter.checkCooldown_loop s now ms addresses = failing cooldown <->
   exists r, FilterCache.remaining_loop s now ms addresses = Some r) /\
  (forall r, FilterCache.remaining_loop s now ms addresses = Some r ->
     exists a T, a ∈ addresses /\
       TransferFilter.lastAlertTime s !! a = Some T /\ T <> 0 /\
       now - T < ms /\ r = FilterCache.remainingSeconds now T ms).
Proof.
  induction addresses as [|addr rest [IH1 IH2]]; simpl.
  - split; [|done]. split; [done|]. by intros [? ?].
  - destruct (TransferFilter.in_cooldown s now ms addr) eqn:Hin.
    + split; [split; eauto|].
      intros r [= <-]. apply in_cooldown_true in Hin as (T & Hl & HT & Hlt).
      exists addr, T. rewrite Hl. simpl.
      split; [apply list_elem_of_here|done].
    + split; [done|]. intros r Hr.
      destruct (IH2 r Hr) as (a & T & Ha & Hrest).
      exists a, T. split; [by apply list_elem_of_further|done].
Qed.

(** X7.  [checkCooldown] fails exactly when it announces a number of
    remaining seconds.  The number is that of an address of the event
    with a timestamp [T] less than the cooldown old; it is at least 1 and
    is the least whole number of seconds after which the cooldown of that
    address is over; it is at most the configured seconds when the clock
    is not behind [T], and more than that when it is. *)
Theorem remainingSeconds_bounds (s : TransferFilter.t) (now : Z)
    (from to : string) :
  let c := default 0 (parseInt (cooldownSeconds (TransferFilter.config s))) in
  (TransferFilter.checkCooldown s now from to = failing cooldown <->
   exists r, FilterCache.remaining s now from to = Some r) /\
  (forall r, FilterCache.remaining s now from to = Some r ->
     exists a T, a ∈ [toLowerCase from; toLowerCase to] /\
       TransferFilter.lastAlertTime s !! a = Some T /\ T <> 0 /\
       now - T < c * 1000 /\
       1 <= r /\
       c * 1000 <= (now + r * 1000) - T < c * 1000 + 1000 /\
       (T <= now -> r <= c) /\
       (now < T -> c < r)).
Proof.
  intros c. subst c.
  unfold TransferFilter.checkCooldown, FilterCache.remaining.
  set (c := default 0 (parseInt (cooldownSeconds (TransferFilter.config s)))).
  destruct (c =? 0).
  - split; [|done]. split; [done|]. by intros [? ?].
  - destruct (remaining_loop_spec s now (c * 1000)
                [toLowerCase from; toLowerCase to]) as [H1 H2].
    split; [done|]. intros r Hr.
    destruct (H2 r Hr) as (a & T & Ha & Hl & HT & Hlt & ->).
    exists a, T. repeat (split; [done|]).
    pose proof (remainingSeconds_ceil now T (c * 1000) Hlt) as Hceil.
    simpl in Hceil. lia.
Qed.

End FilterCaches.

(** ** The listener *)

Section ListenerFacts.
Variable formatEther : Z -> string.
Variable formatUnits : Z -> Z -> string.
Variable isAddress : string -> bool.
Variable parseLog : list string -> string -> option (string * string * Z).
Variable toString : Z -> string.

(** The listener's test and the filter's watch-list check are the same
    function of the watch list and the two addresses. *)
Lemma isWatchedWallet_agrees (self : Listener.t) (f : TransferFilter.t)
    (from to : string) :
  watchedWallets (TransferFilter.config f)
  = watchedWallets (Listener.base (Listener.config self)) ->
  Listener.isWatchedWallet self (Some from) (Some to)
  = passed (TransferFilter.checkWatchedWallets f from to).
Proof.
  intros Hcfg.
  unfold Listener.isWatchedWallet, TransferFilter.checkWatchedWallets.
  rewrite Hcfg. destruct (_ =? _)%nat; [done|].
  by destruct (bool_decide (toLowerCase from ∈ _)),
              (bool_decide (toLowerCase to ∈ _)).
Qed.

(** With a sender that is watched (or an empty list), changing the
    recipient cannot make the filter's check fail. *)
Lemma isWatchedWallet_no_recipient (self : Listener.t) (f : TransferFilter.t)
    (from to : string) :
  watchedWallets (TransferFilter.config f)
  = watchedWallets (Listener.base (Listener.config self)) ->
  Listener.isWatchedWallet self (Some from) None = true ->
  passed (TransferFilter.checkWatchedWallets f from to) = true.
Proof.
  intros Hcfg.
  unfold Listener.isWatchedWallet, TransferFilter.checkWatchedWallets.
  rewrite Hcfg. destruct (_ =? _)%nat; [done|].
  rewrite orb_false_r. intros ->. done.
Qed.

(** X8.  Every transfer the listener emits passes the watch-list check of
    a filter that has the same watch list: [not_watched] cannot be the
    verdict for an event that came through the listener.  (For a native
    transfer the recipient must not be the empty string; it is [null] for
    a contract creation.) *)
Theorem emitted_transfers_are_watched (self : Listener.t)
    (f : TransferFilter.t) (now : Z) (e : TransferEvent) :
  watchedWallets (TransferFilter.config f)
  = watchedWallets (Listener.base (Listener.config self)) ->
  (forall (tx : Listener.Tx) (blockNumber : Z),
     Listener.tx_to tx <> Some "" ->
     Listener.Transfer e
       ∈ Listener.handleEthTransfer formatEther toString self now tx
           blockNumber ->
     passed (TransferFilter.checkWatchedWallets f (e_from e) (e_to e))
     = true) /\
  (forall log : Listener.Log,
     Listener.Transfer e
       ∈ Listener.handleTokenTransferEvent formatUnits parseLog toString
           self now log ->
     passed (TransferFilter.checkWatchedWallets f (e_from e) (e_to e))
     = true).
Proof.
  intros Hcfg. split.
  - intros tx blockNumber Hto. unfold Listener.handleEthTransfer.
    destruct (Listener.isWatchedWallet self _ _) eqn:Hw; simpl;
      [|by intros ?%elem_of_nil].
    intros He. apply list_elem_of_singleton in He. injection He as ->. simpl.
    destruct (Listener.tx_to tx) as [to|] eqn:Eto; simpl.
    + destruct (String.eqb_spec to ""); [by subst|].
      by rewrite <- (isWatchedWallet_agrees self f).
    + by apply (isWatchedWallet_no_recipient self f).
  - intros log. unfold Listener.handleTokenTransferEvent.
    destruct (parseLog _ _) as [[[from to] raw]|]; [|by intros ?%elem_of_nil].
    destruct (Listener.isWatchedWallet self _ _) eqn:Hw; simpl;
      [|by intros ?%elem_of_nil].
    intros He. apply list_elem_of_singleton in He. injection He as ->. simpl.
    by rewrite <- (isWatchedWallet_agrees self f).
Qed.

(** The hash of an emitted transfer. *)
Lemma handleEthTransfer_hashes (self : Listener.t) (now : Z)
    (tx : Listener.Tx) (blockNumber : Z) :
  List.map
    (fun x => match x with
              | Listener.Transfer e => e_transactionHash e
              | _ => ""
              end)
    (Listener.handleEthTransfer formatEther toString self now tx blockNumber)
  = if Listener.isWatchedWallet self (Some (Listener.tx_from tx))
         (Listener.tx_to tx)
    then [Listener.tx_hash tx] else [].
Proof.
  unfold Listener.handleEthTransfer.
  by destruct (Listener.isWatchedWallet self _ _).
Qed.

(** X9.  Scanning a block emits one transfer for each transaction that
    carries value and touches a watched wallet, in the order of the block,
    and nothing else; a block that cannot be fetched emits nothing. *)
Theorem block_scan_emits (self : Listener.t) (clock : nat -> Z)
    (block : option (list Listener.Tx)) (blockNumber : Z) :
  let emitted :=
    Listener.processBlockForEthTransfers formatEther toString self clock
      block blockNumber in
  List.map
    (fun x => match x with
              | Listener.Transfer e => e_transactionHash e
              | _ => ""
              end) emitted
  = List.map Listener.tx_hash
      (List.filter
         (fun tx =>
            (0 <? Listener.tx_value tx) &&
            Listener.isWatchedWallet self (Some (Listener.tx_from tx))
              (Listener.tx_to tx))
         (default [] block)) /\
  (forall x, x ∈ emitted ->
     exists e, x = Listener.Transfer e /\ e_type e = "eth" /\
               e_tokenSymbol e = "ETH" /\ e_blockNumber e = blockNumber) /\
  (block = None -> emitted = []).
Proof.
  intros emitted. subst emitted. destruct block as [txs|]; simpl;
    [|split; [done|split; [by intros ? ?%elem_of_nil|done]]].
  generalize 0%nat as i.
  induction txs as [|tx txs IH]; intros i; simpl.
  - split; [done|split; [by intros ? ?%elem_of_nil|done]].
  - destruct (IH (S i)) as (IHh & IHe & _). split; [|split; [|done]].
    + rewrite map_app, IHh.
      destruct (0 <? Listener.tx_value tx); simpl; [|done].
      rewrite handleEthTransfer_hashes.
      by destruct (Listener.isWatchedWallet self _ _).
    + intros x Hx. apply elem_of_app in Hx as [Hx|Hx]; [|by apply IHe].
      destruct (0 <? Listener.tx_value tx); [|by apply elem_of_nil in Hx].
      unfold Listener.handleEthTransfer in Hx.
      destruct (Listener.isWatchedWallet self _ _);
        [|by apply elem_of_nil in Hx].
      apply list_elem_of_singleton in Hx as ->. eauto.
Qed.

End ListenerFacts.




Section Resubscription.
Variable isAddress : string -> bool.

(** What [subscribe] registers when the listener is connected: the token
    listener in the modes [token] and [all] if the address is valid, and
    the block listener in the modes [eth] and [all]. *)
Lemma subscribe_connected (self : Listener.t) :
  Listener.provider self = true -> Listener.isConnected self = true ->
  let mode :=
    Listener.or_text (Listener.trackingMode (Listener.config self)) "all" in
  let address := tokenContract (Listener.base (Listener.config self)) in
  let token :=
    if (String.eqb mode "token" || String.eqb mode "all") &&
       negb (String.eqb address "" || negb (isAddress address))
    then [Listener.TokenLogs address] else [] in
  let blocks :=
    if String.eqb mode "eth" || String.eqb mode "all"
    then [Listener.Blocks] else [] in
  (Listener.subscribe isAddress self).1
  = (true,
     Listener.set_listeners
       (Listener.listeners self ++ token ++ blocks)%list self).
Proof.
  intros Hp Hc mode address token blocks. subst token blocks.
  unfold Listener.subscribe, Listener.subscribeToTokenTransfers,
    Listener.subscribeToEthTransfers. rewrite Hp, Hc. simpl. fold mode address.
  destruct (String.eqb mode "token" || String.eqb mode "all"),
    (String.eqb address "" || negb (isAddress address)),
    (String.eqb mode "eth" || String.eqb mode "all"); simpl;
    rewrite ?app_nil_r, <- ?app_assoc; try done;
    by destruct self.
Qed.

Lemma subscribe_disconnected (self : Listener.t) :
  Listener.provider self = false \/ Listener.isConnected self = false ->
  Listener.subscribe isAddress self = (false, self, []).
Proof.
  intros Hd. unfold Listener.subscribe.
  destruct Hd as [-> | ->]; [done|]. by rewrite orb_true_r.
Qed.

(** X11.  [updateConfig] always installs the new configuration.  When
    neither the token nor the tracking mode changed, nothing else happens:
    listeners and remembered blocks stay.  When one of them changed (and
    there is a provider), the remembered blocks are cleared and the old
    listeners removed; what is registered afterwards is at most one token
    listener, for the new token, and at most one block listener -- none at
    all while disconnected, no block listener in mode [token], no token
    listener in mode [eth]. *)
Theorem updateConfig_resubscribes (self : Listener.t)
    (newConfig : Listener.ListenerConfig)
    (metadata : option (Z * string * string)) :
  let out := Listener.updateConfig isAddress self newConfig metadata in
  let old := Listener.config self in
  Listener.config out.1 = newConfig /\
  (tokenContract (Listener.base old) = tokenContract (Listener.base newConfig) ->
   Listener.trackingMode old = Listener.trackingMode newConfig ->
   out = (Listener.set_config newConfig self, [])) /\
  (tokenContract (Listener.base old) <> tokenContract (Listener.base newConfig)
   \/ Listener.trackingMode old <> Listener.trackingMode newConfig ->
   Listener.provider self = true ->
   Listener.processedBlocks out.1 = [] /\
   Listener.listeners out.1
     `sublist_of` [Listener.TokenLogs (tokenContract (Listener.base newConfig));
                   Listener.Blocks] /\
   (Listener.isConnected self = false -> Listener.listeners out.1 = []) /\
   (Listener.trackingMode newConfig = Some "token" ->
    Listener.Blocks ∉ Listener.listeners out.1) /\
   (Listener.trackingMode newConfig = Some "eth" ->
    Listener.listeners out.1 `sublist_of` [Listener.Blocks])).
Proof.
  intros out old. subst out old. unfold Listener.updateConfig.
  set (tokenChanged := negb (String.eqb _ _)).
  set (modeChanged := negb (bool_decide _)).
  split; [|split].
  - destruct ((tokenChanged || modeChanged) && _); [|done].
    set (s1 := match metadata with Some m => _ | None => _ end).
    assert (Hcfg : Listener.config s1 = newConfig) by (by destruct metadata).
    destruct (Listener.isConnected s1) eqn:Hc, (Listener.provider s1) eqn:Hp.
    + pose proof (subscribe_connected s1 Hp Hc) as Hs. simpl in Hs.
      destruct (Listener.subscribe isAddress s1) as [[b s2] em].
      simpl in *. by injection Hs as _ ->.
    + rewrite subscribe_disconnected by auto. done.
    + rewrite subscribe_disconnected by auto. done.
    + rewrite subscribe_disconnected by auto. done.
  - intros Ht Hm. subst tokenChanged modeChanged.
    rewrite Ht, String.eqb_refl, bool_decide_eq_true_2 by done. done.
  - intros Hchanged Hprov.
    assert (Hany : tokenChanged || modeChanged = true).
    { subst tokenChanged modeChanged. destruct Hchanged as [Ht|Hm].
      - destruct (String.eqb_spec
                    (tokenContract (Listener.base (Listener.config self)))
                    (tokenContract (Listener.base newConfig))); done.
      - rewrite bool_decide_eq_false_2 by done. by rewrite orb_true_r. }
    rewrite Hany. simpl. rewrite Hprov.
    set (s1 := match metadata with Some m => _ | None => _ end).
    assert (Hs1 : Listener.config s1 = newConfig /\
                  Listener.listeners s1 = [] /\
                  Listener.processedBlocks s1 = [] /\
                  Listener.provider s1 = true /\
                  Listener.isConnected s1 = Listener.isConnected self).
    { by destruct metadata. }
    destruct Hs1 as (Hcfg & Hl & Hb & Hp & Hc).
    destruct (Listener.isConnected self) eqn:Hconn.
    + pose proof (subscribe_connected s1 Hp Hc) as Hs. simpl in Hs.
      rewrite Hcfg, Hl in Hs.
      destruct (Listener.subscribe isAddress s1) as [[b s2] em].
      simpl in *. injection Hs as _ ->. simpl.
      split; [done|].
      set (mode := Listener.or_text (Listener.trackingMode newConfig) "all").
      split; [|split; [done|split]].
      * repeat (match goal with
                  | |- context [if ?b then _ else _] => destruct b
                  end; simpl);
          repeat first [apply sublist_nil | apply sublist_skip
                        | apply sublist_cons].
      * intros Hm. subst mode. rewrite Hm. simpl.
        repeat (match goal with
                | |- context [if ?b then _ else _] => destruct b
                end; simpl);
          intros Hin;
          repeat (apply elem_of_cons in Hin as [Hin|Hin]; [done|]);
          by apply elem_of_nil in Hin.
      * intros Hm. subst mode. rewrite Hm. simpl.
        apply sublist_skip, sublist_nil.
    + rewrite subscribe_disconnected by (right; congruence). simpl.
      rewrite Hl, Hb. repeat split; try done.
      * apply sublist_nil_l.
      * intros _. apply not_elem_of_nil.
      * intros _. apply sublist_nil_l.
Qed.

End Resubscription.

(** ** Configuration: defaults, invariant and changed fields *)

Section ConfigFacts.
Import ConfigWatcher.

(** The five optional fields and their defaults. *)
Lemma set_default_lookup (key key' : string) (d : Json)
    (fields : list (string * Json)) :
  get (set_default key d (JObj fields)) key'
  = Some (if String.eqb key key'
          then match lookup_field key fields with
               | None | Some JNull => Some d
               | Some v => Some v
               end
          else lookup_field key' fields).
Proof.
  destruct (String.eqb_spec key key') as [<-|Hne]; simpl.
  - destruct (lookup_field key fields) as [[]|] eqn:E; simpl;
      by rewrite assign_field_lookup.
  - destruct (lookup_field key fields) as [[]|] eqn:E; simpl;
      by rewrite assign_field_other.
Qed.

Lemma set_default_obj (key : string) (d : Json) (fields : list (string * Json)) :
  exists fields', set_default key d (JObj fields) = JObj fields'.
Proof.
  simpl. destruct (lookup_field key fields) as [[]|]; eauto.
Qed.

(** [validateConfig] on an object. *)
Lemma validateConfig_object (fields : list (string * Json)) :
  validateConfig (JObj fields)
  = if json_truthy (lookup_field "tokenContract" fields)
    then Some
           (set_default "confirmationDepth" (JNum (Fin 0))
              (set_default "telegramChatId" (JStr "")
                 (set_default "cooldownSeconds" (JNum (Fin 0))
                    (set_default "watchedWallets" (JArr [])
                       (set_default "thresholdAmount" (JNum (Fin 0))
                          (JObj fields))))))
    else None.
Proof.
  unfold validateConfig, required. simpl.
  destruct (json_truthy (lookup_field "tokenContract" fields)); reflexivity.
Qed.

(** An accepted document is an object, and so is the result. *)
Lemma validateConfig_obj (c c' : Json) :
  validateConfig c = Some c' ->
  exists fields fields',
    c = JObj fields /\ c' = JObj fields' /\
    json_truthy (lookup_field "tokenContract" fields) = true /\
    c' = set_default "confirmationDepth" (JNum (Fin 0))
           (set_default "telegramChatId" (JStr "")
              (set_default "cooldownSeconds" (JNum (Fin 0))
                 (set_default "watchedWallets" (JArr [])
                    (set_default "thresholdAmount" (JNum (Fin 0))
                       (JObj fields))))).
Proof.
  intros Hv. destruct c; try done.
  rewrite validateConfig_object in Hv.
  destruct (json_truthy (lookup_field "tokenContract" fields)) eqn:Ht; [|done].
  apply (inj Some) in Hv. subst c'. exists fields.
  destruct (set_default_obj "thresholdAmount" (JNum (Fin 0)) fields) as [f1 E1].
  destruct (set_default_obj "watchedWallets" (JArr []) f1) as [f2 E2].
  destruct (set_default_obj "cooldownSeconds" (JNum (Fin 0)) f2) as [f3 E3].
  destruct (set_default_obj "telegramChatId" (JStr "") f3) as [f4 E4].
  destruct (set_default_obj "confirmationDepth" (JNum (Fin 0)) f4) as [f5 E5].
  exists f5. rewrite E1, E2, E3, E4, E5. repeat split; done.
Qed.

Lemma set_default_same (key : string) (d c : Json) :
  (exists fields, c = JObj fields) ->
  get (set_default key d c) key
  = Some (match default None (get c key) with
          | None | Some JNull => Some d
          | Some v => Some v
          end).
Proof.
  intros [fields ->]. rewrite set_default_lookup, String.eqb_refl. done.
Qed.

Lemma set_default_keeps_obj (key : string) (d c : Json) :
  (exists fields, c = JObj fields) ->
  exists fields, set_default key d c = JObj fields.
Proof. intros [fields ->]. apply set_default_obj. Qed.

(** How a field of an accepted document reads afterwards: a value that is
    there and not [null] stays, a missing or [null] optional field gets
    its default, anything else is untouched. *)
Lemma validateConfig_field (fields : list (string * Json)) (c' : Json)
    (key : string) :
  validateConfig (JObj fields) = Some c' ->
  get c' key
  = Some (match List.find (fun kd => String.eqb kd.1 key)
                  [("thresholdAmount", JNum (Fin 0)); ("watchedWallets", JArr []);
                   ("cooldownSeconds", JNum (Fin 0)); ("telegramChatId", JStr "");
                   ("confirmationDepth", JNum (Fin 0))] with
          | Some (_, d) =>
              match lookup_field key fields with
              | None | Some JNull => Some d
              | Some v => Some v
              end
          | None => lookup_field key fields
          end).
Proof.
  intros Hv. apply validateConfig_obj in Hv
    as (f & f' & [= ->] & _ & _ & ->).
  assert (Hobj : exists fields, JObj f = JObj fields) by eauto.
  cbn [List.find fst].
  destruct (String.eqb_spec "thresholdAmount" key) as [<-|H1].
  { rewrite !set_default_other by done. by rewrite set_default_same. }
  destruct (String.eqb_spec "watchedWallets" key) as [<-|H2].
  { rewrite !set_default_other by done.
    rewrite set_default_same by (by apply set_default_keeps_obj).
    by rewrite !set_default_other. }
  destruct (String.eqb_spec "cooldownSeconds" key) as [<-|H3].
  { rewrite !set_default_other by done.
    rewrite set_default_same by (by do 2 apply set_default_keeps_obj).
    by rewrite !set_default_other. }
  destruct (String.eqb_spec "telegramChatId" key) as [<-|H4].
  { rewrite !set_default_other by done.
    rewrite set_default_same by (by do 3 apply set_default_keeps_obj).
    by rewrite !set_default_other. }
  destruct (String.eqb_spec "confirmationDepth" key) as [<-|H5].
  { rewrite set_default_same by (by do 4 apply set_default_keeps_obj).
    by rewrite !set_default_other. }
  by rewrite !set_default_other.
Qed.

End ConfigFacts.

Section ConfigTheorems.
Import ConfigWatcher.

Lemma assign_field_id (key : string) (v : Json) (fields : list (string * Json)) :
  lookup_field key fields = Some v -> assign_field key v fields = fields.
Proof.
  induction fields as [|[k old] rest IH]; simpl; [done|].
  destruct (String.eqb_spec k key) as [->|Hne].
  - by intros [= ->].
  - intros Hl. by rewrite IH.
Qed.

Lemma set_default_id (key : string) (d c : Json) (v : Json) :
  get c key = Some (Some v) -> v <> JNull -> set_default key d c = c.
Proof.
  destruct c; simpl; try done. intros [= Hl] Hv. rewrite Hl.
  destruct v; try done; by rewrite assign_field_id.
Qed.

Lemma optional_default (key : string) :
  key ∈ ConfigChanges.optional ->
  exists d, d <> JNull /\
    List.find (fun kd : string * Json => String.eqb kd.1 key)
      [("thresholdAmount", JNum (Fin 0)); ("watchedWallets", JArr []);
       ("cooldownSeconds", JNum (Fin 0)); ("telegramChatId", JStr "");
       ("confirmationDepth", JNum (Fin 0))] = Some (key, d).
Proof.
  unfold ConfigChanges.optional. intros Hk.
  repeat (apply elem_of_cons in Hk as [->|Hk]; [eexists; split; [|reflexivity]; done|]).
  by apply elem_of_nil in Hk.
Qed.

(** What [validateConfig] returns, field by field. *)
Lemma validateConfig_optional (c c' : Json) :
  validateConfig c = Some c' ->
  forall key, key ∈ ConfigChanges.optional ->
    exists v, get c' key = Some (Some v) /\ v <> JNull.
Proof.
  intros Hv key Hk.
  destruct (validateConfig_obj c c' Hv) as (f & f' & -> & -> & Ht & Hchain).
  rewrite (validateConfig_field f (JObj f') key Hv).
  destruct (optional_default key Hk) as (d & Hd & ->).
  destruct (lookup_field key f) as [[]|]; eauto.
Qed.

Lemma validateConfig_idem (c c' : Json) :
  validateConfig c = Some c' -> validateConfig c' = Some c'.
Proof.
  intros Hv. pose proof (validateConfig_optional c c' Hv) as Hopt.
  destruct (validateConfig_obj c c' Hv) as (f & f' & -> & -> & Ht & Hchain).
  destruct (validateConfig_keeps_token (JObj f) (JObj f') Hv) as [_ Htok].
  rewrite validateConfig_object. simpl in Htok. rewrite Htok. f_equal.
  assert (Hid : forall key d, key ∈ ConfigChanges.optional ->
            set_default key d (JObj f') = JObj f').
  { intros key d Hk. destruct (Hopt key Hk) as (v & Hg & Hnn).
    by apply (set_default_id key d _ v). }
  unfold ConfigChanges.optional in Hid.
  rewrite (Hid "thresholdAmount")
    by repeat first [apply list_elem_of_here | apply list_elem_of_further].
  rewrite (Hid "watchedWallets")
    by repeat first [apply list_elem_of_here | apply list_elem_of_further].
  rewrite (Hid "cooldownSeconds")
    by repeat first [apply list_elem_of_here | apply list_elem_of_further].
  rewrite (Hid "telegramChatId")
    by repeat first [apply list_elem_of_here | apply list_elem_of_further].
  rewrite (Hid "confirmationDepth")
    by repeat first [apply list_elem_of_here | apply list_elem_of_further].
  done.
Qed.

(** X12.  A document that [validateConfig] accepts comes back with its
    five optional fields present and not [null]; every field that was
    there with a value other than [null] keeps that value; fields other
    than the five are untouched; and validating the result again changes
    nothing. *)
Theorem validateConfig_fills_defaults (c c' : Json) :
  validateConfig c = Some c' ->
  (forall key, key ∈ ConfigChanges.optional ->
     exists v, get c' key = Some (Some v) /\ v <> JNull) /\
  (forall key v, get c key = Some (Some v) -> v <> JNull ->
     get c' key = Some (Some v)) /\
  (forall key, key ∉ ConfigChanges.optional -> get c' key = get c key) /\
  validateConfig c' = Some c'.
Proof.
  intros Hv.
  split; [by apply (validateConfig_optional c)|].
  split; [|split; [|by apply (validateConfig_idem c)]].
  - destruct (validateConfig_obj c c' Hv) as (f & f' & -> & -> & Ht & Hchain).
    intros key v Hg Hnn. rewrite (validateConfig_field f (JObj f') key Hv).
    simpl in Hg. injection Hg as Hg. rewrite Hg.
    destruct (List.find _ _) as [[k d]|]; [|done]. by destruct v.
  - destruct (validateConfig_obj c c' Hv) as (f & f' & -> & -> & Ht & Hchain).
    intros key Hk. rewrite (validateConfig_field f (JObj f') key Hv).
    cbn [get]. f_equal. unfold ConfigChanges.optional in Hk.
    repeat (apply not_elem_of_cons in Hk as [? Hk]).
    cbn [List.find fst].
    repeat (match goal with
            | |- context [String.eqb ?a key] =>
                destruct (String.eqb_spec a key); [congruence|]
            end).
    done.
Qed.

Section WithParser.
Variable JSON_parse : string -> option Json.

Lemma loadConfig_stored_ok (file : File) (w : t) :
  ConfigChanges.stored_ok w ->
  ConfigChanges.stored_ok (loadConfig JSON_parse file w).2.
Proof.
  intros Hok. unfold loadConfig.
  destruct file as [| |content]; simpl; try done.
  destruct (JSON_parse content) as [parsed|]; simpl; [|done].
  destruct (validateConfig parsed) as [cfg|] eqn:Hv; simpl; [|done].
  unfold ConfigChanges.stored_ok. simpl. split.
  - by apply (validateConfig_idem parsed).
  - by destruct (validateConfig_keeps_token parsed cfg Hv).
Qed.

Lemma loadAll_stored_ok (files : list File) (w : t) :
  ConfigChanges.stored_ok w ->
  ConfigChanges.stored_ok (ConfigChanges.loadAll JSON_parse files w).
Proof.
  revert w. induction files as [|f files IH]; intros w Hok; simpl; [done|].
  apply IH. by apply loadConfig_stored_ok.
Qed.

(** X13.  Whatever the file went through, the watcher holds either nothing
    or an object with a truthy [tokenContract] and all its defaults filled
    in (one that [validateConfig] would return unchanged); and
    [loadConfig] returns either [null] or what the watcher holds. *)
Theorem stored_config_valid (files : list File) (file : File) :
  let w := ConfigChanges.loadAll JSON_parse files new in
  ConfigChanges.stored_ok w /\
  let out := loadConfig JSON_parse file w in
  (out.1 = None \/ out.1 = config out.2).
Proof.
  intros w. split.
  - by apply loadAll_stored_ok.
  - simpl. unfold loadConfig. destruct file as [| |content]; simpl; auto.
    destruct (JSON_parse content) as [parsed|]; simpl; auto.
    destruct (validateConfig parsed); simpl; auto.
Qed.

End WithParser.

Section ChangedFields.
Variable JSON_stringify : Json -> string.

Lemma key_set_elem (keys seen : list string) (x : string) :
  x ∈ ConfigChanges.key_set seen keys <-> x ∈ seen \/ x ∈ keys.
Proof.
  revert seen. induction keys as [|k keys IH]; intros seen; simpl.
  - split; [auto|]. intros [|Hx]; [done|]. by apply elem_of_nil in Hx.
  - rewrite IH. unfold TransferFilter.set_add. case_bool_decide as Hk.
    + rewrite elem_of_cons. split; [tauto|]. intros [?|[->|?]]; auto.
    + rewrite elem_of_app, list_elem_of_singleton, elem_of_cons. tauto.
Qed.

Lemma getChangedFields_same (c : list (string * Json)) :
  ConfigChanges.getChangedFields JSON_stringify (Some c) c = [].
Proof.
  unfold ConfigChanges.getChangedFields.
  induction (ConfigChanges.key_set [] (List.map fst c ++ List.map fst c))
    as [|k ks IH]; simpl; [done|].
  by rewrite bool_decide_eq_true_2.
Qed.

(** X14.  [getChangedFields] reports exactly the keys of either
    configuration whose values serialize differently (a key that is
    missing on one side counts as different); comparing a configuration
    with itself reports nothing. *)
Theorem changed_fields_exact (old new : list (string * Json)) (key : string) :
  (key ∈ ConfigChanges.getChangedFields JSON_stringify (Some old) new <->
   (key ∈ List.map fst old \/ key ∈ List.map fst new) /\
   ConfigChanges.stringify_field JSON_stringify key old
   <> ConfigChanges.stringify_field JSON_stringify key new) /\
  ConfigChanges.getChangedFields JSON_stringify (Some old) old = [].
Proof.
  split.
  - unfold ConfigChanges.getChangedFields.
    rewrite list_elem_of_In, filter_In, <- list_elem_of_In, key_set_elem.
    rewrite elem_of_app, negb_true_iff, bool_decide_eq_false.
    split; [intros [[Hn|H] ?]|intros [H ?]]; try done.
    + by apply elem_of_nil in Hn.
    + auto.
  - apply getChangedFields_same.
Qed.

End ChangedFields.

(** X15.  When a reload fails but [handleConfigChange] still emits a
    ['configChange'] event (the file is there but cannot be read, parsed
    or accepted, and a configuration is stored), the event carries the
    stored configuration as both old and new, with no changed field. *)
Theorem failed_reload_reports_no_change
    (JSON_parse : string -> option Json) (JSON_stringify : Json -> string)
    (files : list File) (file : File) (ch : ConfigChange) :
  let w := ConfigChanges.loadAll JSON_parse files new in
  reload_fails JSON_parse file ->
  (handleConfigChange JSON_parse file w).1 = Some ch ->
  file <> Absent /\
  config w = Some (newConfig ch) /\
  oldConfig ch = newConfig ch /\
  ConfigChanges.changedFields JSON_stringify ch = [].
Proof.
  intros w Hfail Hch.
  assert (Hok : ConfigChanges.stored_ok w)
    by (by apply loadAll_stored_ok).
  unfold handleConfigChange in Hch.
  rewrite (loadConfig_failure JSON_parse file w Hfail) in Hch.
  destruct file; simpl in Hch; try done;
    destruct (config w) as [c|] eqn:Hc; try done;
    injection Hch as <-; simpl;
    unfold ConfigChanges.stored_ok in Hok; rewrite Hc in Hok;
    destruct Hok as [Hv _];
    destruct (validateConfig_obj c c Hv) as (f & _ & -> & _);
    (split; [done|]); (split; [done|]); (split; [done|]);
    unfold ConfigChanges.changedFields; simpl;
    apply getChangedFields_same.
Qed.

End ConfigTheorems.

(** ** The notifier *)

Section NotifierFacts.
Import TelegramNotifier.
Variable sendMessage : nat -> Outcome.
Variable now : Z.

(** The loop up to the first attempt that succeeds. *)
Lemma sendAlert_loop_success (n start k retries : nat)
    (event : TransferEvent) (self : t) (err : nat -> Error) :
  (start <= k < start + n)%nat ->
  sendMessage k = Sent ->
  (forall j, (start <= j < k)%nat -> sendMessage j = Threw (err j)) ->
  sendAlert_loop sendMessage now (seq start n) retries event self
  = ({| success := true; reason := None |}, record_success now event self,
     (flat_map (fun j => failed_attempt retries j (err j))
        (seq start (k - start)) ++ [SendMessage k])%list).
Proof.
  revert start. induction n as [|n IH]; intros start Hk Hsent Hfail; [lia|].
  simpl. destruct (decide (start = k)) as [->|Hne].
  - rewrite Hsent, Nat.sub_diag. done.
  - rewrite (Hfail start) by lia.
    rewrite (IH (S start)) by first [lia | done | intros; apply Hfail; lia].
    replace (k - start)%nat with (S (k - S start)) by lia.
    cbn [seq flat_map]. unfold failed_attempt at 3.
    by rewrite <- app_assoc.
Qed.

Lemma delay_bound (attempt : nat) (network : bool) :
  (1 <= attempt)%nat -> 0 <= delay attempt network <= 2 ^ Z.of_nat attempt * 1000.
Proof.
  intros Hge. unfold delay. destruct network.
  - split; [|lia]. apply Z.mul_nonneg_nonneg; [apply Z.pow_nonneg|]; lia.
  - split; [apply Z.mul_nonneg_nonneg; [apply Z.pow_nonneg|]; lia|].
    apply Z.mul_le_mono_nonneg_r; [lia|]. apply Z.pow_le_mono_r; lia.
Qed.

Lemma total_pause_app (l1 l2 : list Action) :
  NotifierLifecycle.total_pause (l1 ++ l2)
  = NotifierLifecycle.total_pause l1 + NotifierLifecycle.total_pause l2.
Proof.
  unfold NotifierLifecycle.total_pause. rewrite pauses_app.
  induction (pauses l1) as [|d ds IH]; simpl; lia.
Qed.

(** What one more attempt adds to the time spent pausing. *)
Lemma sendAlert_loop_cons_pause (attempt : nat) (rest : list nat)
    (retries : nat) (event : TransferEvent) (self : t) :
  NotifierLifecycle.total_pause
    (sendAlert_loop sendMessage now (attempt :: rest) retries event self).2
  = match sendMessage attempt with
    | Sent => 0
    | Threw e =>
        (if (attempt <? retries)%nat
         then delay attempt (isNetworkError (errorMsg e)) else 0)
        + NotifierLifecycle.total_pause
            (sendAlert_loop sendMessage now rest retries event self).2
    end.
Proof.
  simpl. destruct (sendMessage attempt) as [|e]; [done|].
  destruct (sendAlert_loop sendMessage now rest retries event self)
    as [[r s'] acts].
  by destruct (attempt <? retries)%nat.
Qed.

(** The pauses of the attempts from [start] on add up to less than what
    doubling leaves below [2 ^ retries] seconds. *)
Lemma sendAlert_loop_pause (n start retries : nat) (event : TransferEvent)
    (self : t) :
  (1 <= start)%nat -> (start + S n = S retries)%nat ->
  0 <= NotifierLifecycle.total_pause
         (sendAlert_loop sendMessage now (seq start (S n)) retries event self).2
    <= (2 ^ Z.of_nat retries - 2 ^ Z.of_nat start) * 1000.
Proof.
  revert start. induction n as [|n IH]; intros start Hstart Hlen.
  - assert (start = retries) as -> by lia.
    change (seq retries 1) with [retries]. rewrite sendAlert_loop_cons_pause.
    rewrite Nat.ltb_irrefl. destruct (sendMessage retries); simpl;
      unfold NotifierLifecycle.total_pause; simpl; lia.
  - change (seq start (S (S n))) with (start :: seq (S start) (S n)).
    rewrite sendAlert_loop_cons_pause.
    specialize (IH (S start) ltac:(lia) ltac:(lia)).
    replace (Z.of_nat (S start)) with (Z.succ (Z.of_nat start)) in IH by lia.
    rewrite Z.pow_succ_r in IH by lia.
    assert (2 ^ Z.of_nat start <= 2 ^ Z.of_nat retries)
      by (apply Z.pow_le_mono_r; lia).
    destruct (sendMessage start) as [|err]; [lia|].
    destruct (Nat.ltb_spec start retries); [|lia].
    pose proof (delay_bound start (isNetworkError (errorMsg err)) Hstart).
    lia.
Qed.

End NotifierFacts.

(** The calls and the pauses of failed attempts that are each followed
    by another one. *)
Lemma failed_trace (retries : nat) (err : nat -> TelegramNotifier.Error)
    (n start : nat) :
  (start + n <= retries)%nat ->
  TelegramNotifier.sends
    (flat_map (fun j => TelegramNotifier.failed_attempt retries j (err j))
       (seq start n))
  = seq start n /\
  TelegramNotifier.pauses
    (flat_map (fun j => TelegramNotifier.failed_attempt retries j (err j))
       (seq start n))
  = List.map
      (fun j => TelegramNotifier.delay j
                  (TelegramNotifier.isNetworkError
                     (TelegramNotifier.errorMsg (err j))))
      (seq start n).
Proof.
  revert start. induction n as [|n IH]; intros start Hle; [done|].
  cbn [flat_map seq]. rewrite sends_app, pauses_app.
  destruct (IH (S start) ltac:(lia)) as [-> ->].
  unfold TelegramNotifier.failed_attempt.
  destruct (Nat.ltb_spec start retries) as [Hlt|Hge]; [done|lia].
Qed.

(** X16.  When the bot fails at the attempts before [k] and succeeds at
    attempt [k] (within [retries]), [sendAlert] reports success after
    exactly [k] calls, with the pause of each failed attempt in between,
    counts one more alert and remembers the transaction as the last one
    alerted. *)
Theorem sendAlert_first_success (sendMessage : nat -> TelegramNotifier.Outcome)
    (now : Z) (self : TelegramNotifier.t) (event : TransferEvent)
    (retries k : nat) (err : nat -> TelegramNotifier.Error) :
  TelegramNotifier.isEnabled self = true -> TelegramNotifier.bot self = true ->
  (1 <= k <= retries)%nat ->
  sendMessage k = TelegramNotifier.Sent ->
  (forall j, (1 <= j < k)%nat -> sendMessage j = TelegramNotifier.Threw (err j)) ->
  let out := TelegramNotifier.sendAlert sendMessage now self event retries in
  TelegramNotifier.success out.1.1 = true /\
  TelegramNotifier.sends out.2 = seq 1 k /\
  TelegramNotifier.pauses out.2
  = List.map
      (fun j => TelegramNotifier.delay j
                  (TelegramNotifier.isNetworkError
                     (TelegramNotifier.errorMsg (err j))))
      (seq 1 (k - 1)) /\
  TelegramNotifier.alertCount out.1.2 = TelegramNotifier.alertCount self + 1 /\
  option_map TelegramNotifier.la_transactionHash
    (TelegramNotifier.lastAlertSent out.1.2) = Some (e_transactionHash event).
Proof.
  intros Hen Hbot Hk Hsent Hfail out. subst out.
  unfold TelegramNotifier.sendAlert. rewrite Hen, Hbot. simpl.
  rewrite (sendAlert_loop_success sendMessage now retries 1 k retries event
             self err) by (done || lia).
  simpl. split; [done|].
  rewrite sends_app, pauses_app.
  destruct (failed_trace retries err (k - 1)%nat 1%nat ltac:(lia)) as [-> ->].
  simpl. rewrite app_nil_r. split; [|done].
  destruct k as [|k]; [lia|].
  replace (S k - 1)%nat with k by lia. by rewrite seq_S.
Qed.

(** X17.  [initialize] enables the notifier exactly when the bot token and
    the chat id are set and the bot could be created.  A notifier that is
    not enabled, and any notifier after [destroy], answers [sendAlert]
    with [{ success: false, reason: 'disabled' }] without calling the bot;
    an enabled one calls it. *)
Theorem notifier_enabled_iff (token : option string) (chatId : JsValue)
    (created : bool) (self : TelegramNotifier.t)
    (sendMessage : nat -> TelegramNotifier.Outcome) (now : Z)
    (event : TransferEvent) (retries : nat) :
  let out := NotifierLifecycle.initialize token chatId created self in
  let disabled (n : TelegramNotifier.t) :=
    TelegramNotifier.sendAlert sendMessage now n event retries
    = ({| TelegramNotifier.success := false;
          TelegramNotifier.reason := Some "disabled" |}, n, []) in
  (out.1 = true <->
   NotifierLifecycle.text_truthy token = true /\
   NotifierLifecycle.value_truthy chatId = true /\ created = true) /\
  TelegramNotifier.isEnabled out.2 = out.1 /\
  (out.1 = false -> disabled out.2) /\
  disabled (NotifierLifecycle.destroy self) /\
  (out.1 = true ->
   TelegramNotifier.sends
     (TelegramNotifier.sendAlert sendMessage now out.2 event (S retries)).2
   <> []).
Proof.
  intros out disabled. subst out disabled.
  unfold NotifierLifecycle.initialize.
  destruct (NotifierLifecycle.text_truthy token),
    (NotifierLifecycle.value_truthy chatId), created; simpl;
    (split; [split; [try done; tauto | by intros (? & ? & ?)]|]);
    (split; [done|]); (split; [try done|]); (split; [done|]); try done.
  intros _. unfold TelegramNotifier.sendAlert. simpl.
  destruct (sendMessage 1%nat); simpl; [done|].
  destruct (TelegramNotifier.sendAlert_loop _ _ _ _ _ _) as [[? ?] ?]. done.
Qed.

(** X18.  One call of [sendAlert] pauses for less than [2 ^ retries]
    seconds in all, however the attempts end: at most 30 seconds with the
    five attempts of the default. *)
Theorem sendAlert_pause_bound (sendMessage : nat -> TelegramNotifier.Outcome)
    (now : Z) (self : TelegramNotifier.t) (event : TransferEvent)
    (retries : nat) :
  let pause (r : nat) :=
    NotifierLifecycle.total_pause
      (TelegramNotifier.sendAlert sendMessage now self event r).2 in
  0 <= pause retries <= Z.max 0 (2 ^ Z.of_nat retries - 2) * 1000 /\
  pause 5%nat <= 30000.
Proof.
  intros pause.
  assert (Hgen : forall r, 0 <= pause r <= Z.max 0 (2 ^ Z.of_nat r - 2) * 1000).
  { intros r. subst pause. simpl. unfold TelegramNotifier.sendAlert.
    destruct (_ || _); [unfold NotifierLifecycle.total_pause; simpl; lia|].
    destruct r as [|r]; [unfold NotifierLifecycle.total_pause; simpl; lia|].
    pose proof (sendAlert_loop_pause sendMessage now r 1 (S r) event self
                  ltac:(lia) ltac:(lia)) as Hb.
    change (2 ^ Z.of_nat 1) with 2 in Hb. lia. }
  split; [apply Hgen|]. specialize (Hgen 5%nat).
  change (Z.max 0 (2 ^ Z.of_nat 5 - 2) * 1000) with 30000 in Hgen. lia.
Qed.

(** ** The stored history and the in-memory list *)

Lemma addEvent_take (now : Z) (e : ChainWatch.EventWithMeta)
    (events : list ChainWatch.StoredEvent) :
  ChainWatch.addEvent now e events
  = take ChainWatch.MAX_EVENTS
      ({| ChainWatch.stored := e; ChainWatch.storedAt := now |} :: events).
Proof.
  unfold ChainWatch.addEvent.
  destruct (Nat.ltb_spec ChainWatch.MAX_EVENTS
              (length ({| ChainWatch.stored := e;
                          ChainWatch.storedAt := now |} :: events)));
    [done|].
  symmetry. by apply take_ge.
Qed.

Lemma take_app_take {A : Type} (n : nat) (l m : list A) :
  take n (l ++ take n m) = take n (l ++ m).
Proof.
  rewrite !take_app, take_take. f_equal. f_equal. lia.
Qed.

Lemma addAll_take (es : list (Z * ChainWatch.EventWithMeta))
    (events : list ChainWatch.StoredEvent) :
  take ChainWatch.MAX_EVENTS (EventStorage.addAll es events)
  = take ChainWatch.MAX_EVENTS
      (rev (List.map (fun p => {| ChainWatch.stored := p.2;
                                  ChainWatch.storedAt := p.1 |}) es)
       ++ events).
Proof.
  revert events. induction es as [|[now e] es IH]; intros events; [done|].
  cbn [EventStorage.addAll List.map rev]. rewrite IH, addEvent_take.
  rewrite take_app_take. by rewrite <- app_assoc.
Qed.

Lemma addAll_length (es : list (Z * ChainWatch.EventWithMeta))
    (events : list ChainWatch.StoredEvent) :
  (length events <= ChainWatch.MAX_EVENTS)%nat ->
  (length (EventStorage.addAll es events) <= ChainWatch.MAX_EVENTS)%nat.
Proof.
  revert events. induction es as [|[now e] es IH]; intros events Hlen;
    [done|].
  cbn [EventStorage.addAll]. apply IH. rewrite addEvent_take, length_take. lia.
Qed.

(** X20.  The stored history holds the events newest first and never more
    than 500 of them: after any number of [addEvent] calls on a history
    within the bound it is the 500 newest entries, and [getEvents(limit)]
    returns the [limit] newest of those. *)
Theorem storage_newest_first (es : list (Z * ChainWatch.EventWithMeta))
    (events : list ChainWatch.StoredEvent) (limit : nat) :
  (length events <= ChainWatch.MAX_EVENTS)%nat ->
  let newest :=
    (rev (List.map (fun p => {| ChainWatch.stored := p.2;
                                ChainWatch.storedAt := p.1 |}) es)
     ++ events)%list in
  EventStorage.addAll es events = take ChainWatch.MAX_EVENTS newest /\
  EventStorage.getEvents limit (EventStorage.addAll es events)
  = take (limit `min` ChainWatch.MAX_EVENTS) newest.
Proof.
  intros Hlen newest.
  assert (Hall : EventStorage.addAll es events
                 = take ChainWatch.MAX_EVENTS newest).
  { rewrite <- (take_ge (EventStorage.addAll es events) ChainWatch.MAX_EVENTS)
      by by apply addAll_length.
    apply addAll_take. }
  split; [done|].
  unfold EventStorage.getEvents. by rewrite Hall, take_take.
Qed.

Lemma pushRecent_drop (e : ChainWatch.EventWithMeta)
    (events : list ChainWatch.EventWithMeta) :
  (length events <= ChainWatch.MAX_RECENT_EVENTS)%nat ->
  ChainWatch.pushRecent e events
  = drop (length events + 1 - ChainWatch.MAX_RECENT_EVENTS) (events ++ [e]) /\
  (length (ChainWatch.pushRecent e events)
   <= ChainWatch.MAX_RECENT_EVENTS)%nat.
Proof.
  intros Hlen. unfold ChainWatch.pushRecent. rewrite length_app. simpl.
  destruct (Nat.ltb_spec ChainWatch.MAX_RECENT_EVENTS (length events + 1)).
  - replace (length events + 1 - ChainWatch.MAX_RECENT_EVENTS)%nat
      with 1%nat by lia.
    split; [done|]. rewrite length_drop, length_app. simpl. lia.
  - replace (length events + 1 - ChainWatch.MAX_RECENT_EVENTS)%nat
      with 0%nat by lia.
    split; [done|]. rewrite length_app. simpl. lia.
Qed.

(** X21.  The in-memory list keeps the last 100 events, oldest first:
    after any number of pushes onto a list within the bound, it is what
    remains of all events when the oldest beyond 100 are dropped. *)
Theorem recent_keeps_last (es events : list ChainWatch.EventWithMeta) :
  (length events <= ChainWatch.MAX_RECENT_EVENTS)%nat ->
  EventStorage.pushAll es events
  = drop (length events + length es - ChainWatch.MAX_RECENT_EVENTS)
         (events ++ es) /\
  (length (EventStorage.pushAll es events)
   <= ChainWatch.MAX_RECENT_EVENTS)%nat.
Proof.
  revert events. induction es as [|e es IH]; intros events Hlen.
  - simpl. rewrite app_nil_r.
    replace (length events + 0 - ChainWatch.MAX_RECENT_EVENTS)%nat
      with 0%nat by lia.
    done.
  - cbn [EventStorage.pushAll].
    destruct (pushRecent_drop e events Hlen) as [Hpush Hbound].
    destruct (IH _ Hbound) as [-> Hb]. split; [|done].
    rewrite Hpush at 2. rewrite Hpush.
    rewrite length_drop, length_app. cbn [length].
    set (d := (length events + 1 - ChainWatch.MAX_RECENT_EVENTS)%nat).
    assert (Hd : (d <= length (events ++ [e]))%nat)
      by (rewrite length_app; simpl; lia).
    rewrite <- (drop_app_le (events ++ [e]) es d Hd) at 1.
    rewrite drop_drop, <- app_assoc. simpl.
    f_equal. unfold d. lia.
Qed.

(** X22.  An event that passes the filter reaches every sink: it becomes
    the last entry of [recentEvents] and the first of the stored history,
    a ['transfer'] message is broadcast when there is a websocket server,
    and the notifier is asked once, with up to five attempts. *)
Theorem passed_event_reaches_sinks `{B : Builtins} (app : ChainWatch.t)
    (env : ChainWatch.Env) (ev : TransferEvent) :
  let result :=
    (TransferFilter.filter (ChainWatch.filter app) (ChainWatch.tCheck env)
       (ChainWatch.tUpdate env) ev).1 in
  let e :=
    {| ChainWatch.event := ev; ChainWatch.filterResult := result;
       ChainWatch.meta := ChainWatch.enrich env ev;
       ChainWatch.processedAt := ChainWatch.tProcessed env |} in
  let alert :=
    TelegramNotifier.sendAlert (ChainWatch.sendMessage env)
      (ChainWatch.tAlert env) (ChainWatch.notifier app) ev 5 in
  let app' := ChainWatch.onTransfer app env ev in
  passed result = true ->
  last (ChainWatch.recentEvents app') = Some e /\
  head (ChainWatch.storage app')
  = Some {| ChainWatch.stored := e;
            ChainWatch.storedAt := ChainWatch.tStored env |} /\
  (forall sent, ChainWatch.wsServer app = Some sent ->
     exists sent', ChainWatch.wsServer app' = Some sent' /\
       ChainWatch.BTransfer e result (ChainWatch.tBroadcast env) ∈ sent') /\
  ChainWatch.notifier app' = alert.1.2 /\
  ChainWatch.telegram app' = (ChainWatch.telegram app ++ alert.2)%list.
Proof.
  intros result e alert app' Hpass. subst app'.
  unfold ChainWatch.onTransfer.
  destruct (TransferFilter.filter (ChainWatch.filter app)
              (ChainWatch.tCheck env) (ChainWatch.tUpdate env) ev)
    as [r f] eqn:Hf.
  subst result alert. cbn [fst] in *.
  set (e0 := {| ChainWatch.event := ev; ChainWatch.filterResult := r;
                ChainWatch.meta := ChainWatch.enrich env ev;
                ChainWatch.processedAt := ChainWatch.tProcessed env |}) in *.
  subst e.
  destruct (bool_decide_reflect (reason r = Some duplicate)) as [Hdup|_].
  { pose proof (filter_verdicts (ChainWatch.filter app)
                  (ChainWatch.tCheck env) (ChainWatch.tUpdate env) ev) as Hv.
    rewrite Hf in Hv. simpl in Hv.
    exfalso. destruct r. simpl in *. subst.
    destruct Hv as [Hv|Hv]; try discriminate Hv;
      repeat (destruct Hv as [Hv|Hv]; try discriminate Hv). }
  rewrite Hpass. cbn [negb ChainWatch.notifier ChainWatch.recentEvents
                      ChainWatch.storage ChainWatch.wsServer
                      ChainWatch.telegram].
  destruct (TelegramNotifier.sendAlert (ChainWatch.sendMessage env)
              (ChainWatch.tAlert env) (ChainWatch.notifier app) ev 5)
    as [[ar n] acts].
  cbn [ChainWatch.notifier ChainWatch.recentEvents ChainWatch.storage
       ChainWatch.wsServer ChainWatch.telegram fst snd].
  split.
  { unfold ChainWatch.pushRecent.
    destruct (Nat.ltb_spec ChainWatch.MAX_RECENT_EVENTS
                (length (ChainWatch.recentEvents app ++ [e0]))) as [Hlt|_];
      [|by rewrite last_snoc].
    destruct (ChainWatch.recentEvents app) as [|x l];
      [simpl in Hlt; unfold ChainWatch.MAX_RECENT_EVENTS in Hlt; lia|].
    simpl. by rewrite drop_0, last_snoc. }
  split.
  { rewrite addEvent_take. done. }
  split; [|done].
  intros sent ->. simpl.
  destruct (TelegramNotifier.success ar); simpl; eexists; split; try done;
    rewrite !elem_of_app, !list_elem_of_singleton; auto.
Qed.

(** X23.  [getEventsForWallet] returns, in the order of the history, only
    stored events whose sender or recipient is the wallet up to letter
    case, never more than [limit]; with a limit that covers the history
    it returns every such event. *)
Theorem wallet_history (walletAddress : string) (limit : nat)
    (events : list ChainWatch.StoredEvent) :
  let involved (e : ChainWatch.StoredEvent) :=
    same_address (e_from (ChainWatch.event (ChainWatch.stored e)))
                 walletAddress \/
    same_address (e_to (ChainWatch.event (ChainWatch.stored e)))
                 walletAddress in
  let found := EventStorage.getEventsForWallet walletAddress limit events in
  found `sublist_of` events /\
  (length found <= limit)%nat /\
  (forall e, e ∈ found -> involved e) /\
  ((length events <= limit)%nat ->
   forall e, e ∈ events -> involved e -> e ∈ found).
Proof.
  intros involved found. subst involved found.
  unfold EventStorage.getEventsForWallet, same_address.
  set (p := fun e : ChainWatch.StoredEvent =>
              String.eqb
                (toLowerCase (e_from (ChainWatch.event (ChainWatch.stored e))))
                (toLowerCase walletAddress) ||
              String.eqb
                (toLowerCase (e_to (ChainWatch.event (ChainWatch.stored e))))
                (toLowerCase walletAddress)).
  assert (Hp : forall e, p e = true <->
            toLowerCase (e_from (ChainWatch.event (ChainWatch.stored e)))
              = toLowerCase walletAddress \/
            toLowerCase (e_to (ChainWatch.event (ChainWatch.stored e)))
              = toLowerCase walletAddress).
  { intros e. unfold p. rewrite orb_true_iff, !String.eqb_eq. done. }
  assert (Hsub : List.filter p events `sublist_of` events).
  { induction events as [|x l IH]; simpl; [done|].
    destruct (p x); [by apply sublist_skip|by apply sublist_cons]. }
  split; [|split; [|split]].
  - etrans; [apply sublist_take|done].
  - rewrite length_take. lia.
  - intros e He. apply Hp.
    assert (Hin : e ∈ List.filter p events)
      by (eapply elem_of_sublist; [done|apply sublist_take]).
    apply list_elem_of_In, filter_In in Hin. tauto.
  - intros Hlen e He Hinv. rewrite take_ge.
    + apply list_elem_of_In, filter_In. split; [by apply list_elem_of_In|].
      by apply Hp.
    + apply sublist_length in Hsub. lia.
Qed.

(** ** The keepalive of a websocket client *)

Lemma keepalive_terminated (events : list Keepalive.Event) :
  Keepalive.run Keepalive.Terminated events = Keepalive.Terminated.
Proof. induction events as [|e l IH]; [done|]. by destruct e. Qed.

(** X19.  The server terminates a client exactly when the keepalive
    interval fires twice with no pong from the client in between (for a
    client that is already waiting for a pong, the interval that sent the
    ping counts as the first of the two); a client that answers every
    ping stays connected. *)
Theorem keepalive_terminates_silent (events : list Keepalive.Event)
    (f : Keepalive.Flag) :
  Keepalive.run (Keepalive.Connected f) events = Keepalive.Terminated <->
  Keepalive.silent_interval
    (match f with
     | Keepalive.Waiting => Keepalive.Tick :: events
     | _ => events
     end) = true.
Proof.
  revert f. induction events as [|e l IH]; intros f.
  - by destruct f.
  - destruct e.
    + destruct f; cbn [Keepalive.run Keepalive.step fst].
      * by rewrite (IH Keepalive.Waiting).
      * by rewrite (IH Keepalive.Waiting).
      * by rewrite keepalive_terminated.
    + destruct f; cbn [Keepalive.run Keepalive.step fst];
        by rewrite (IH Keepalive.Alive).
Qed.

(** ** The rules engine *)

Lemma Qle_bool_cases (x y : Q) :
  Qle_bool y x = negb (Qle_bool x y) || Qeq_bool x y.
Proof.
  destruct (Qle_bool y x) eqn:A, (Qle_bool x y) eqn:B, (Qeq_bool x y) eqn:C;
    try reflexivity; exfalso.
  - apply Qle_bool_iff in A, B.
    assert (Qeq_bool x y = true)
      by (apply Qeq_bool_iff; by apply Qle_antisym).
    congruence.
  - apply Qeq_bool_iff in C.
    assert (Qle_bool y x = true)
      by (apply Qle_bool_iff; rewrite C; apply Qle_refl).
    congruence.
  - assert (Hn : ~ (x <= y)%Q) by (rewrite <- Qle_bool_iff; congruence).
    apply Qnot_le_lt, Qlt_le_weak, Qle_bool_iff in Hn. congruence.
  - assert (Hn : ~ (x <= y)%Q) by (rewrite <- Qle_bool_iff; congruence).
    apply Qnot_le_lt, Qlt_le_weak, Qle_bool_iff in Hn. congruence.
Qed.

Lemma Qeq_bool_sym (x y : Q) : Qeq_bool x y = Qeq_bool y x.
Proof.
  destruct (Qeq_bool x y) eqn:E, (Qeq_bool y x) eqn:E'; try done.
  - apply Qeq_bool_iff, Qeq_sym, Qeq_bool_iff in E. congruence.
  - apply Qeq_bool_iff, Qeq_sym, Qeq_bool_iff in E'. congruence.
Qed.

(** X24.  The six operators of [compareValues] are consistent on numbers:
    [>=] is [>] or [==], [<=] is [<] or [==], [!=] is the negation of
    [==], no two of [<], [==] and [>] hold together, and all three fail
    only when one side is [NaN]; any other operator gives [false]. *)
Theorem compareValues_consistent (value threshold : JsNum)
    (operator : string) :
  let cmp op := AlertRules.compareValues value op threshold in
  cmp ">=" = cmp ">" || cmp "==" /\
  cmp "<=" = cmp "<" || cmp "==" /\
  cmp "!=" = negb (cmp "==") /\
  cmp "<" && cmp ">" = false /\
  cmp "<" && cmp "==" = false /\
  cmp ">" && cmp "==" = false /\
  (cmp "<" || cmp "==" || cmp ">" = false <->
   value = NaN \/ threshold = NaN) /\
  (operator ∉ [">"; "<"; ">="; "<="; "=="; "!="] -> cmp operator = false).
Proof.
  intros cmp. subst cmp. unfold AlertRules.compareValues.
  cbn [String.eqb Ascii.eqb Bool.eqb andb].
  assert (Hop : operator ∉ [">"; "<"; ">="; "<="; "=="; "!="] ->
            (if String.eqb operator ">" then js_lt threshold value
             else if String.eqb operator "<" then js_lt value threshold
             else if String.eqb operator ">="
               then AlertRules.js_le threshold value
             else if String.eqb operator "<="
               then AlertRules.js_le value threshold
             else if String.eqb operator "=="
               then AlertRules.js_eq value threshold
             else if String.eqb operator "!="
               then negb (AlertRules.js_eq value threshold)
             else false) = false).
  { intros Hn.
    repeat (apply not_elem_of_cons in Hn as [? Hn]).
    repeat match goal with
           | |- context [String.eqb operator ?s] =>
               destruct (String.eqb_spec operator s); [congruence|]
           end.
    done. }
  destruct value as [| |x|], threshold as [| |y|];
    cbn [js_lt AlertRules.js_le AlertRules.js_eq negb orb andb] in Hop |- *;
    try (pose proof (Qle_bool_cases x y) as H1;
         pose proof (Qle_bool_cases y x) as H2;
         rewrite (Qeq_bool_sym y x) in H2;
         destruct (Qle_bool y x), (Qle_bool x y), (Qeq_bool x y);
         cbn [negb orb andb] in H1, H2 |- *; try discriminate);
    repeat split; try done; try apply Hop;
    try (intros [?|?]; discriminate);
    try (intros _; first [by left | by right]).
Qed.

Section CountRule.
Import AlertRules.
Variable parseTimeframe : string -> JsNum.

(** Evaluations whose checks all fall within the timeframe of an entry
    count on from that entry. *)
Lemma evaluateAll_within (rule : Rule) (address : string) (start : Z)
    (clock : list (Z * Z * Z)) (counts : gmap string Counter) (n : nat) :
  walletAddress rule = Some address ->
  toLowerCase address <> "" ->
  counts !! key (toLowerCase address) rule
    = Some {| count := Z.of_nat n; firstTx := start |} ->
  (forall t, t ∈ clock ->
     js_lt (parseTimeframe (Listener.or_text (timeframe rule) "1h"))
           (Fin (inject_Z (t.1.2 - start))) = false) ->
  (evaluateAll parseTimeframe counts rule clock).1
  = List.map (fun k => compareValues (Fin (inject_Z (Z.of_nat k)))
                         (operator rule) (threshold rule))
      (seq (S n) (length clock)) /\
  (evaluateAll parseTimeframe counts rule clock).2
    !! key (toLowerCase address) rule
  = Some {| count := Z.of_nat (n + length clock); firstTx := start |}.
Proof.
  intros Hw Hne. revert counts n.
  induction clock as [|[[tc tk] tr] clock IH]; intros counts n Hk Hin.
  - simpl. by rewrite Nat.add_0_r.
  - cbn [evaluateAll]. unfold evaluateTransactionCountRule.
    rewrite Hw. destruct (String.eqb_spec (toLowerCase address) ""); [done|].
    rewrite Hk. cbn [count firstTx].
    pose proof (Hin (tc, tk, tr) ltac:(apply list_elem_of_here)) as Hnow.
    cbn [fst snd] in Hnow. rewrite Hnow.
    cbn [count firstTx].
    replace (Z.of_nat n + 1) with (Z.of_nat (S n)) by lia.
    specialize (IH (<[key (toLowerCase address) rule :=
                       {| count := Z.of_nat (S n); firstTx := start |}]>
                      counts) (S n)).
    destruct (evaluateAll parseTimeframe _ rule clock) as [bs counts'].
    cbn [fst snd length seq List.map] in *.
    destruct IH as [-> ->].
    + by rewrite lookup_insert_eq.
    + intros t Ht. apply Hin. by apply list_elem_of_further.
    + split; [done|]. do 3 f_equal. lia.
Qed.

End CountRule.

(** X25.  The transaction-count rule counts within a window anchored at
    its first evaluation: for a rule with a wallet and no entry yet, as
    long as every check falls within the timeframe of the first
    evaluation, the [k]-th evaluation compares [k] with the threshold,
    and the entry keeps the time of the first one. *)
Theorem transaction_count_window (parseTimeframe : string -> JsNum)
    (rule : AlertRules.Rule) (address : string)
    (counts : gmap string AlertRules.Counter)
    (tCreate tCheck tReset : Z) (clock : list (Z * Z * Z)) :
  AlertRules.walletAddress rule = Some address ->
  toLowerCase address <> "" ->
  counts !! AlertRules.key (toLowerCase address) rule = None ->
  (forall t, t ∈ (tCreate, tCheck, tReset) :: clock ->
     js_lt (parseTimeframe
              (Listener.or_text (AlertRules.timeframe rule) "1h"))
           (Fin (inject_Z (t.1.2 - tCreate))) = false) ->
  let out :=
    AlertRules.evaluateAll parseTimeframe counts rule
      ((tCreate, tCheck, tReset) :: clock) in
  out.1 = List.map
            (fun k => AlertRules.compareValues (Fin (inject_Z (Z.of_nat k)))
                        (AlertRules.operator rule)
                        (AlertRules.threshold rule))
            (seq 1 (S (length clock))) /\
  out.2 !! AlertRules.key (toLowerCase address) rule
  = Some {| AlertRules.count := Z.of_nat (S (length clock));
            AlertRules.firstTx := tCreate |}.
Proof.
  intros Hw Hne Hk Hin out. subst out.
  cbn [AlertRules.evaluateAll].
  unfold AlertRules.evaluateTransactionCountRule.
  rewrite Hw. destruct (String.eqb_spec (toLowerCase address) ""); [done|].
  rewrite Hk. cbn [AlertRules.count AlertRules.firstTx].
  pose proof (Hin (tCreate, tCheck, tReset) ltac:(apply list_elem_of_here))
    as Hnow.
  cbn [fst snd] in Hnow. rewrite Hnow.
  cbn [AlertRules.count AlertRules.firstTx].
  pose proof (evaluateAll_within parseTimeframe rule address tCreate clock
                (<[AlertRules.key (toLowerCase address) rule :=
                    {| AlertRules.count := 0 + 1;
                       AlertRules.firstTx := tCreate |}]> counts) 1 Hw Hne)
    as Hrest.
  destruct (AlertRules.evaluateAll parseTimeframe _ rule clock)
    as [bs counts'].
  cbn [fst snd] in *.
  destruct Hrest as [-> ->].
  - by rewrite lookup_insert_eq.
  - intros t Ht. apply Hin. by apply list_elem_of_further.
  - done.
Qed.

(** ** The further properties on the samples *)

Section OnMoreSamples.
Import Samples MoreSamples.

Lemma eviction_drops_oldest_witness :
  let s' := (TransferFilter.filter (B := Engine.builtins) full t0 t0 event1).2 in
  TransferFilter.processedTxHashes s' = ["0x111"] /\
  TransferFilter.isDuplicate s' "0xa" = false.
Proof.
  destruct (eviction_drops_oldest (B := Engine.builtins) full t0 t0 event1
              0 "0xa") as (Hh & _ & Hgone).
  - apply (bool_decide_unpack _). by vm_compute.
  - vm_compute. discriminate.
  - apply (bool_decide_unpack _). by vm_compute.
  - reflexivity.
  - split; [exact Hh|]. apply Hgone. lia.
Defined.

Lemma unmatched_keeps_cooldowns_witness :
  TransferFilter.lastAlertTime
    (TransferFilter.filter (B := Engine.builtins) s0 t0 t0 stranger).2
  = TransferFilter.lastAlertTime s0.
Proof.
  apply (unmatched_keeps_cooldowns (B := Engine.builtins) s0 t0 t0 stranger).
  vm_compute. reflexivity.
Defined.

Lemma matched_prunes_cooldowns_witness :
  TransferFilter.lastAlertTime
    (TransferFilter.filter (B := Engine.builtins) s0 t0 (t0 + 10) event1).2
    !! "0xaa" = Some (t0 + 10) /\
  t0 + 10 - 3600000 <= t0 + 10.
Proof.
  split; [vm_compute; reflexivity|].
  apply (matched_prunes_cooldowns (B := Engine.builtins) s0 t0 (t0 + 10)
           event1 "0xaa" (t0 + 10)).
  - vm_compute. reflexivity.
  - vm_compute. reflexivity.
Defined.

Lemma cooldown_off_witness :
  let s := TransferFilter.new cfg_no_cooldown in
  (forall (now : Z) (from to : string),
     TransferFilter.checkCooldown (B := Engine.builtins) s now from to = ok) /\
  reason (TransferFilter.filter (B := Engine.builtins) s t0 t0 event1).1
    <> Some cooldown.
Proof.
  apply (cooldown_off (B := Engine.builtins)
           (TransferFilter.new cfg_no_cooldown) t0 t0 event1).
  vm_compute. reflexivity.
Defined.

(** The seconds announced ten seconds into a cooldown of sixty, and with
    the clock one millisecond behind the timestamp. *)
Example remainingSeconds_samples :
  let s1 := (TransferFilter.filter (B := Engine.builtins) s0 t0 t0 event1).2 in
  FilterCache.remaining (B := Engine.builtins) s1 (t0 + 10000) "0xAA" "0xBB"
    = Some 50 /\
  FilterCache.remaining (B := Engine.builtins) s1 (t0 - 1) "0xCC" "0xAA"
    = Some 61 /\
  FilterCache.remaining (B := Engine.builtins) s1 (t0 + 60000) "0xAA" "0xBB"
    = None.
Proof. vm_compute. repeat split. Qed.

Lemma emitted_transfers_are_watched_witness :
  passed (TransferFilter.checkWatchedWallets s0 "0xAA" "0xBB") = true.
Proof.
  destruct (emitted_transfers_are_watched formatEther formatUnits parseLog
              toString listener0 s0 t0 emitted0 eq_refl) as [Heth _].
  apply (Heth tx0 3); [discriminate|].
  assert (H : Listener.handleEthTransfer formatEther toString listener0 t0
                tx0 3 = [Listener.Transfer emitted0])
    by (vm_compute; reflexivity).
  rewrite H. apply list_elem_of_here.
Defined.


Lemma validateConfig_fills_defaults_witness :
  ConfigWatcher.validateConfig validated = Some validated.
Proof.
  apply (validateConfig_fills_defaults valid_json validated).
  vm_compute. reflexivity.
Defined.

Lemma failed_reload_reports_no_change_witness :
  ConfigChanges.changedFields MoreSamples.JSON_stringify
    {| ConfigWatcher.oldConfig := validated;
       ConfigWatcher.newConfig := validated |} = [].
Proof.
  apply (failed_reload_reports_no_change Samples.JSON_parse
           MoreSamples.JSON_stringify
           [ConfigWatcher.Readable "valid.json"]
           (ConfigWatcher.Readable "no-token.json")
           {| ConfigWatcher.oldConfig := validated;
              ConfigWatcher.newConfig := validated |}).
  - vm_compute. reflexivity.
  - vm_compute. reflexivity.
Defined.

Lemma sendAlert_first_success_witness :
  TelegramNotifier.sends
    (TelegramNotifier.sendAlert recovers t0 notifier0 event1 5).2
  = [1%nat; 2%nat].
Proof.
  apply (sendAlert_first_success recovers t0 notifier0 event1 5 2
           (fun _ => network_error)).
  - reflexivity.
  - reflexivity.
  - lia.
  - reflexivity.
  - intros j Hj. assert (j = 1%nat) as -> by lia. reflexivity.
Defined.

Lemma storage_newest_first_witness :
  EventStorage.addAll
    [(t0, with_meta event1); (t0 + 1, with_meta event3)] []
  = [ {| ChainWatch.stored := with_meta event3;
         ChainWatch.storedAt := t0 + 1 |};
      {| ChainWatch.stored := with_meta event1;
         ChainWatch.storedAt := t0 |} ].
Proof.
  apply (storage_newest_first
           [(t0, with_meta event1); (t0 + 1, with_meta event3)] [] 100).
  simpl. lia.
Defined.

Lemma recent_keeps_last_witness :
  EventStorage.pushAll [with_meta event1; with_meta event3] []
  = [with_meta event1; with_meta event3].
Proof.
  apply (recent_keeps_last [with_meta event1; with_meta event3] []).
  simpl. lia.
Defined.

Lemma passed_event_reaches_sinks_witness :
  ChainWatch.telegram
    (ChainWatch.onTransfer (B := Engine.builtins) app0 env0 event1)
  = [TelegramNotifier.SendMessage 1].
Proof.
  apply (passed_event_reaches_sinks (B := Engine.builtins) app0 env0 event1).
  vm_compute. reflexivity.
Defined.

Lemma transaction_count_window_witness :
  (AlertRules.evaluateAll parseTimeframe ∅ rule0
     [(t0, t0, t0); (t0 + 1000, t0 + 1000, t0 + 1000);
      (t0 + 2000, t0 + 2000, t0 + 2000)]).1
  = [false; false; true].
Proof.
  apply (transaction_count_window parseTimeframe rule0 "0xAA" ∅ t0 t0 t0
           [(t0 + 1000, t0 + 1000, t0 + 1000);
            (t0 + 2000, t0 + 2000, t0 + 2000)]).
  - reflexivity.
  - vm_compute. discriminate.
  - reflexivity.
  - intros t Ht.
    repeat (apply elem_of_cons in Ht as [->|Ht]);
      [reflexivity..|by apply elem_of_nil in Ht].
Defined.

End OnMoreSamples.
